(** * autoReply: the message-to-reply loop of the Vencord plugin

    A shallow embedding of [src/autoReply/index.tsx] and of the native
    helper [makeAIRequest], with the proofs of the properties the
    specification states about the history assembler, the provider adapter,
    the reply splitter and the debounce gate.  The older [src/autoReply.tsx]
    has the same [getMessageHistory], [generateReply] and [handleMessage];
    its [makeAICall], which has no [catch] block, is in [Module Legacy]. *)

From Stdlib Require Import List NArith ZArith Bool Lia String Ascii.
Import ListNotations.

Set Implicit Arguments.

(* ===================================================================== *)
(** ** JavaScript strings *)
(* ===================================================================== *)

(** A JavaScript string is a sequence of UTF-16 code units. *)
Definition code_unit := N.
Definition jsstring := list code_unit.

(** ASCII literals of the source, as code units. *)
Fixpoint js (s : string) : jsstring :=
  match s with
  | EmptyString => []
  | String c r => N_of_ascii c :: js r
  end.

(** The line feed, written [\n] in the source. *)
Definition LF : code_unit := 10%N.

(** [===] on strings: equality of the code-unit sequences. *)
Fixpoint jseq (a b : jsstring) : bool :=
  match a, b with
  | [], [] => true
  | x :: a', y :: b' => N.eqb x y && jseq a' b'
  | _, _ => false
  end.

(** ECMAScript WhiteSpace and LineTerminator code points: what
    [String.prototype.trim] strips and what [\s] matches. *)
Definition isWhiteSpace (c : code_unit) : bool :=
  (N.eqb c 9 || N.eqb c 10 || N.eqb c 11 || N.eqb c 12 || N.eqb c 13 ||
   N.eqb c 32 || N.eqb c 160 || N.eqb c 5760 ||
   (N.leb 8192 c && N.leb c 8202) ||
   N.eqb c 8232 || N.eqb c 8233 || N.eqb c 8239 || N.eqb c 8287 ||
   N.eqb c 12288 || N.eqb c 65279)%N.

Fixpoint trimStart (s : jsstring) : jsstring :=
  match s with
  | c :: r => if isWhiteSpace c then trimStart r else s
  | [] => []
  end.

(** [String.prototype.trim]. *)
Definition trim (s : jsstring) : jsstring :=
  rev (trimStart (rev (trimStart s))).

(** [s.trim() !== ""]. *)
Definition nonBlank (s : jsstring) : bool := negb (jseq (trim s) []).

(** [haystack.includes(needle)]. *)
Fixpoint startsWith (s p : jsstring) : bool :=
  match p, s with
  | [], _ => true
  | y :: p', x :: s' => N.eqb x y && startsWith s' p'
  | _ :: _, [] => false
  end.

Fixpoint includes (s p : jsstring) : bool :=
  startsWith s p ||
  match s with
  | [] => false
  | _ :: s' => includes s' p
  end.

(** [arr.slice(start)] for an integral [start]: a negative start counts from
    the end, and both ends are clamped to the array. *)
Definition slice (A : Type) (start : Z) (l : list A) : list A :=
  let len := Z.of_nat (List.length l) in
  let k := if (start <? 0)%Z then Z.max (len + start) 0 else Z.min start len in
  skipn (Z.to_nat k) l.

(* ===================================================================== *)
(** ** Data model *)
(* ===================================================================== *)

(** [role: "user" | "model"]. *)
Inductive Role := user | model.

Definition Role_eqb (a b : Role) : bool :=
  match a, b with
  | user, user | model, model => true
  | _, _ => false
  end.

(** [interface ChatHistory { role; parts: { text }[] }].  Every history
    entry the plugin builds has the one-element [parts] array [[{ text }]]
    and is read only through [parts[0].text], so the entry carries that
    text. *)
Record ChatHistory := { role : Role; text : jsstring }.

(** The fields of a stored Discord message that the plugin reads. *)
Record Message := { author_id : jsstring; content : jsstring }.

(** What JavaScript throws. *)
Inductive JsError :=
| TypeError (what : jsstring)
| Error (message : jsstring).

Inductive Result (A : Type) :=
| Ok (a : A)
| Throw (e : JsError).
Arguments Ok {A} a.
Arguments Throw {A} e.

(** [settings.store]. *)
Record Settings := {
  enabled : bool;
  aiProvider : jsstring;
  modelName : jsstring;
  apiKey : jsstring;
  cooldown : Z;
  customInstructions : jsstring;
  historyLength : Z;
  showTyping : bool
}.

(* ===================================================================== *)
(** ** History assembler *)
(* ===================================================================== *)

(** The [map] callback of [getMessageHistory]. *)
Definition toTurn (selfId : jsstring) (msg : Message) : ChatHistory :=
  {| role := if jseq (author_id msg) selfId then model else user;
     text := content msg |}.

(** The [filter] callback: [msg.parts[0].text.trim() !== ""]. *)
Definition keepTurn (msg : ChatHistory) : bool := nonBlank (text msg).

(** [msgdict[0].role = "user"]. *)
Definition setRoleUser (msg : ChatHistory) : ChatHistory :=
  {| role := user; text := text msg |}.

(** The array [msgdict] after the [filter] statement. *)
Definition msgdict (selfId : jsstring) (messages : list Message)
  : list ChatHistory :=
  filter keepTurn (map (toTurn selfId) messages).

(** The fetched window:
    [MessageStore.getMessages(channelId)?.toArray().slice(-historyLength) || []],
    where [stored] is [None] when the store has no entry for the channel. *)
Definition fetchWindow (stored : option (list Message)) (n : Z)
  : list Message :=
  match stored with
  | Some all => slice (- n) all
  | None => []
  end.

Definition undefinedRole : JsError :=
  TypeError (js "Cannot read properties of undefined (reading 'role')").

(** The body of [getMessageHistory] from the fetched window on: [map],
    [filter], then the fix of the leading role.  Reading [msgdict[0].role]
    of an empty array throws. *)
Definition assembleWindow (selfId : jsstring) (messages : list Message)
  : Result (list ChatHistory) :=
  match msgdict selfId messages with
  | [] => Throw undefinedRole
  | first :: rest =>
      if Role_eqb (role first) model
      then Ok (setRoleUser first :: rest)
      else Ok (first :: rest)
  end.

(* ===================================================================== *)
(** ** The regular expression [/\n\s*\n+/] *)
(* ===================================================================== *)

(** The patterns used by the plugin are sequences of character classes, each
    taken once, or under a greedy [*] or [+]. *)
Inductive Quant := One | Star | Plus.

Definition Pattern := list ((code_unit -> bool) * Quant).

Section Backtracking.
Variable cls : code_unit -> bool.
(** The continuation: the rest of the pattern. *)
Variable k : jsstring -> option jsstring.

(** Greedy [cls*]: take one more character if possible, and give it back
    when the continuation fails. *)
Fixpoint star (s : jsstring) : option jsstring :=
  match s with
  | c :: r =>
      if cls c
      then match star r with
           | Some e => Some e
           | None => k s
           end
      else k s
  | [] => k s
  end.

Definition one (s : jsstring) : option jsstring :=
  match s with
  | c :: r => if cls c then k r else None
  | [] => None
  end.
End Backtracking.

(** A match of the pattern at the start of [s]; the result is what follows
    the match. *)
Fixpoint matchHere (re : Pattern) : jsstring -> option jsstring :=
  match re with
  | [] => fun s => Some s
  | (cls, q) :: re' =>
      let k := matchHere re' in
      match q with
      | One => one cls k
      | Star => star cls k
      | Plus => one cls (star cls k)
      end
  end.

Definition isLF (c : code_unit) : bool := N.eqb c LF.

(** [/\n\s*\n+/]. *)
Definition blankLine : Pattern :=
  [(isLF, One); (isWhiteSpace, Star); (isLF, Plus)].

(** [re.test(s)] for a pattern without flags: the leftmost position with a
    match. *)
Fixpoint test (re : Pattern) (s : jsstring) : bool :=
  match matchHere re s with
  | Some _ => true
  | None =>
      match s with
      | [] => false
      | _ :: r => test re r
      end
  end.

(** The loop of [RegExp.prototype[@@split]] on a non-empty string: [cur]
    holds [S[p..q)] in reverse and [s] is [S[q..]].  A match at [q] that ends
    at [p] (an empty match at [q = p]) is skipped. *)
Fixpoint splitLoop (fuel : nat) (re : Pattern) (cur s : jsstring)
  : list jsstring :=
  match fuel with
  | O => []
  | S fuel' =>
      match s with
      | [] => [rev cur]
      | c :: r =>
          match matchHere re s with
          | None => splitLoop fuel' re (c :: cur) r
          | Some e =>
              match cur with
              | [] =>
                  if Nat.eqb (List.length e) (List.length s)
                  then splitLoop fuel' re (c :: cur) r
                  else rev cur :: splitLoop fuel' re [] e
              | _ :: _ => rev cur :: splitLoop fuel' re [] e
              end
          end
      end
  end.

(** [s.split(re)] without a limit. *)
Definition split (re : Pattern) (s : jsstring) : list jsstring :=
  match s with
  | [] =>
      match matchHere re s with
      | Some _ => []
      | None => [s]
      end
  | _ :: _ => splitLoop (2 * List.length s + 2) re [] s
  end.

(* ===================================================================== *)
(** ** Effects *)
(* ===================================================================== *)

(** What the plugin does to the outside world, in the order it does it. *)
Inductive Event :=
| PostTyping (channelId : jsstring)
    (* RestAPI.post({ url: `/channels/${channelId}/typing` }) *)
| GeminiCall (key mdl : jsstring) (history : list ChatHistory)
    (message : jsstring)
    (* startChat({ history, ... }) and chat.sendMessage(message) *)
| FetchCall (endpoint key mdl : jsstring)
    (messages : list (jsstring * jsstring))
    (* fetch(endpoint, { method: "POST", headers, body }) *)
| ConsoleError (what : jsstring)
| CspDialog (provider : jsstring)
| Sleep (chars : nat)
    (* setTimeout after Math.random() * 2000 + chars * 40 ms *)
| SendMessage (channelId content : jsstring)
| ErrorAlert
| ErrorAlertTimer
| CooldownSleep (seconds : Z)
| SetDeBounce (b : bool).

(** The calls that reach the HTTP/SDK layer of an AI provider. *)
Definition isProviderCall (e : Event) : bool :=
  match e with
  | GeminiCall _ _ _ _ | FetchCall _ _ _ _ => true
  | _ => false
  end.

Definition providerCalls (t : list Event) : list Event :=
  filter isProviderCall t.

Fixpoint sent (t : list Event) : list jsstring :=
  match t with
  | [] => []
  | SendMessage _ c :: r => c :: sent r
  | _ :: r => sent r
  end.

(** The answer to [fetch]: a rejection, or a response whose [json()] gives
    [choices[0].message.content] or throws. *)
Inductive FetchOutcome :=
| FetchRejects (e : JsError)
| FetchResponds (ok : bool) (statusText : jsstring) (body : Result jsstring).

(** How the host and the providers answer. *)
Record World := {
  user_id : jsstring;
    (* window.DiscordNative.crashReporter.getMetadata().user_id *)
  getMessages : jsstring -> option (list Message);
  restPost : jsstring -> Result unit;
  geminiAnswer : jsstring -> jsstring -> list ChatHistory -> jsstring
                 -> Result jsstring;
  fetchAnswer : jsstring -> jsstring -> jsstring
                -> list (jsstring * jsstring) -> FetchOutcome;
  sendMessageAnswer : jsstring -> jsstring -> Result unit;
  alertAnswer : Result unit
}.

(** The module-level variables and [this.hasShownError]. *)
Record Globals := {
  isStarted : bool;
  deBounce : bool;
  activeChannelId : option jsstring;
  hasShownError : bool
}.

Definition initial : Globals :=
  {| isStarted := false; deBounce := false; activeChannelId := None;
     hasShownError := false |}.

(** An async function body: it reads and writes the globals, leaves a trace
    and returns or throws. *)
Definition M (A : Type) : Type := Globals -> list Event * Globals * Result A.

Definition ret (A : Type) (a : A) : M A := fun g => ([], g, Ok a).

Definition throw (A : Type) (e : JsError) : M A := fun g => ([], g, Throw e).
Arguments throw {A} e.

Definition bind (A B : Type) (m : M A) (f : A -> M B) : M B :=
  fun g =>
    match m g with
    | (t, g1, Ok a) =>
        match f a g1 with
        | (t', g2, r) => (t ++ t', g2, r)
        end
    | (t, g1, Throw e) => (t, g1, Throw e)
    end.

Notation "x <- m ;; k" := (bind m (fun x => k))
  (at level 61, m at next level, right associativity).
Notation "m ;;; k" := (bind m (fun _ => k))
  (at level 61, right associativity).

Definition emit (e : Event) : M unit := fun g => ([e], g, Ok tt).

Definition lift (A : Type) (r : Result A) : M A := fun g => ([], g, r).

(** [try { m } catch (error) { h error }]. *)
Definition tryCatch (A : Type) (m : M A) (h : JsError -> M A) : M A :=
  fun g =>
    match m g with
    | (t, g1, Throw e) =>
        match h e g1 with
        | (t', g2, r) => (t ++ t', g2, r)
        end
    | done => done
    end.

(** [try { m } finally { f }]: [f] runs however [m] ends, and the outcome of
    [m] stands unless [f] throws. *)
Definition tryFinally (A : Type) (m : M A) (f : M unit) : M A :=
  fun g =>
    match m g with
    | (t, g1, r) =>
        match f g1 with
        | (t', g2, Ok _) => (t ++ t', g2, r)
        | (t', g2, Throw e) => (t ++ t', g2, Throw e)
        end
    end.

Definition setDeBounce (b : bool) : M unit :=
  fun g =>
    ([SetDeBounce b],
     {| isStarted := isStarted g; deBounce := b;
        activeChannelId := activeChannelId g;
        hasShownError := hasShownError g |},
     Ok tt).

Definition setHasShownError (b : bool) : M unit :=
  fun g =>
    ([],
     {| isStarted := isStarted g; deBounce := deBounce g;
        activeChannelId := activeChannelId g;
        hasShownError := b |},
     Ok tt).

Definition getGlobals : M Globals := fun g => ([], g, Ok g).

(** [for (const x of xs) { body x }]. *)
Fixpoint forOf (A : Type) (xs : list A) (body : A -> M unit) : M unit :=
  match xs with
  | [] => ret tt
  | x :: r => body x ;;; forOf r body
  end.

(* ===================================================================== *)
(** ** The plugin *)
(* ===================================================================== *)

(** [error.message] of a thrown value. *)
Definition errorMessage (e : JsError) : jsstring :=
  match e with
  | TypeError m => m
  | Error m => m
  end.

(** [String(error)]. *)
Definition stringOfError (e : JsError) : jsstring :=
  match e with
  | TypeError m => js "TypeError: " ++ m
  | Error m => js "Error: " ++ m
  end.

(** [role] as a string of the request body. *)
Definition roleName (r : Role) : jsstring :=
  match r with
  | user => js "user"
  | model => js "model"
  end.

(** [a || b] on strings. *)
Definition orElse (a b : jsstring) : jsstring :=
  match a with
  | [] => b
  | _ :: _ => a
  end.

Section Plugin.
Variable w : World.
Variable settings : Settings.

Definition setTypingStatus (channelId : jsstring) (typing : bool) : M unit :=
  tryCatch
    (if typing
     then emit (PostTyping channelId) ;;; lift (restPost w channelId)
     else ret tt)
    (fun _ => emit (ConsoleError (js "Error setting typing status:"))).

Definition getMessageHistory (channelId : jsstring)
  : M (list ChatHistory) :=
  lift (assembleWindow (user_id w)
          (fetchWindow (getMessages w channelId) (historyLength settings))).

(** The messages of the request body of the OpenAI-compatible providers. *)
Definition wireMessages (provider : jsstring) (history : list ChatHistory)
  (message : jsstring) : list (jsstring * jsstring) :=
  map (fun msg =>
         (if jseq provider (js "deepseek") && Role_eqb (role msg) model
          then js "assistant" else roleName (role msg),
          text msg))
      history
  ++ [(js "user", message)].

Definition cspLike (m : jsstring) : bool :=
  includes m (js "fetch") || includes m (js "network") ||
  includes m (js "CORS") || includes m (js "blocked") ||
  includes m (js "CSP") ||
  includes m (js "violates the following Content Security Policy").

(** [handleCSPError]: one dialog. *)
Definition handleCSPError (provider : jsstring) : M unit :=
  emit (CspDialog provider) ;;; lift (alertAnswer w).

(** The gemini branch, the same in [makeAICall] and [makeAIRequest]. *)
Definition geminiBranch (key mdl : jsstring) (history : list ChatHistory)
  (message : jsstring) : M jsstring :=
  let m := orElse mdl (js "gemini-2.5-pro") in
  emit (GeminiCall key m history message) ;;;
  lift (geminiAnswer w key m history message).

Definition restEndpoint (provider : jsstring) : jsstring :=
  if jseq provider (js "deepseek")
  then js "https://api.deepseek.com/v1/chat/completions"
  else js "https://api.openai.com/v1/chat/completions".

Definition restModel (provider mdl : jsstring) : jsstring :=
  orElse mdl (if jseq provider (js "deepseek")
              then js "deepseek-chat" else js "gpt-3.5-turbo").

(** The [catch] block of [makeAICall]: an error that looks like a blocked
    request opens the dialog, and every error is thrown again. *)
Definition cspCheck (provider : jsstring) (error : JsError) : M jsstring :=
  (if negb (jseq (errorMessage error) []) && cspLike (errorMessage error)
   then
     emit (ConsoleError (js "CSP violation detected for provider:")) ;;;
     if negb (jseq provider [])
     then handleCSPError provider
     else ret tt
   else ret tt) ;;;
  throw error.

Definition makeAICall (history : list ChatHistory) (message : jsstring)
  : M jsstring :=
  let provider := aiProvider settings in
  let key := apiKey settings in
  let mdl := modelName settings in
  if jseq key []
  then throw (Error (js "API key is required"))
  else
    tryCatch
      (if jseq provider (js "gemini")
       then geminiBranch key mdl history message
       else if jseq provider (js "deepseek") || jseq provider (js "openai")
       then
         let endpoint := restEndpoint provider in
         let m := restModel provider mdl in
         let messages := wireMessages provider history message in
         emit (FetchCall endpoint key m messages) ;;;
         match fetchAnswer w endpoint key m messages with
         | FetchRejects e => throw e
         | FetchResponds ok statusText body =>
             if negb ok
             then throw (Error (js "API request failed: " ++ statusText))
             else lift body
         end
       else
         emit (ConsoleError (js "No such provider!")) ;;;
         ret [])
      (cspCheck provider).

Definition latestTurn : ChatHistory :=
  {| role := user; text := customInstructions settings |}.

(** The [catch] block of [generateReply]. *)
Definition logAndRethrow (error : JsError) : M jsstring :=
  emit (ConsoleError (js "Error generating reply:")) ;;;
  throw error.

Definition generateReply (channelId message : jsstring) : M jsstring :=
  tryCatch
    ((if jseq message [] || jseq (trim message) []
      then throw (Error (js "Empty message content"))
      else ret tt) ;;;
     history <- getMessageHistory channelId ;;
     (* history.pop(); history.push({ role: "user", ... }) *)
     let history := removelast history ++ [latestTurn] in
     makeAICall history message)
    logAndRethrow.
End Plugin.

(** The [MESSAGE_CREATE] event as the handler reads it: [author] is
    [message?.message?.author?.id], [None] when a link of the chain is
    missing. *)
Record MessageCreate := {
  channelId : jsstring;
  author : option jsstring;
  messageContent : jsstring
}.

(** [channelId !== activeChannelId]. *)
Definition otherChannel (channelId : jsstring) (active : option jsstring)
  : bool :=
  match active with
  | Some c => negb (jseq channelId c)
  | None => true
  end.

(** The condition of the early [return] of [handleMessage]. *)
Definition ignored (w : World) (settings : Settings) (g : Globals)
  (ev : MessageCreate) : bool :=
  negb (enabled settings) ||
  match author ev with
  | None => true
  | Some id => jseq id [] || jseq id (user_id w)
  end ||
  otherChannel (channelId ev) (activeChannelId g) ||
  negb (isStarted g) ||
  deBounce g.

Section Handler.
Variable w : World.
Variable settings : Settings.

(** Typing indicator, pacing delay and the send of one outbound message. *)
Definition sendPaced (channelId part : jsstring) : M unit :=
  (if showTyping settings
   then setTypingStatus w channelId (showTyping settings)
   else ret tt) ;;;
  emit (Sleep (List.length part)) ;;;
  emit (SendMessage channelId part) ;;;
  lift (sendMessageAnswer w channelId part).

(** The splitter and pacer: what the [try] block does with the reply. *)
Definition sendReply (channelId reply : jsstring) : M unit :=
  if test blankLine reply
  then
    forOf (split blankLine reply)
      (fun part =>
         if jseq (trim part) []
         then ret tt
         else sendPaced channelId part)
  else sendPaced channelId reply.

(** The [try] block of [handleMessage]. *)
Definition replyCycle (ev : MessageCreate) : M unit :=
  (if showTyping settings
   then setTypingStatus w (channelId ev) (showTyping settings)
   else ret tt) ;;;
  reply <- generateReply w settings (channelId ev) (messageContent ev) ;;
  sendReply (channelId ev) reply.

(** The [catch] block. *)
Definition reportFailure (error : JsError) : M unit :=
  emit (ConsoleError (js "Failed to generate or send reply:")) ;;;
  g <- getGlobals ;;
  if negb (hasShownError g)
  then
    setHasShownError true ;;;
    emit ErrorAlert ;;;
    lift (alertAnswer w) ;;;
    emit ErrorAlertTimer
  else ret tt.

(** The [finally] block. *)
Definition coolDown : M unit :=
  emit (CooldownSleep (cooldown settings)) ;;;
  setDeBounce false.

Definition handleMessage (ev : MessageCreate) : M unit :=
  fun g =>
    if ignored w settings g ev
    then ([], g, Ok tt)
    else
      (setDeBounce true ;;;
       tryFinally (tryCatch (replyCycle ev) reportFailure) coolDown) g.
End Handler.

(** The answer of the IPC helper: [{ success: true, data }] or
    [{ success: false, error }]. *)
Inductive Reply :=
| Success (data : jsstring)
| Failure (error : jsstring).

(** [makeAIRequest] of the native side. *)
Definition makeAIRequest (w : World) (provider key mdl : jsstring)
  (history : list ChatHistory) (message : jsstring) : M Reply :=
  tryCatch
    (if jseq provider (js "gemini")
     then
       data <- geminiBranch w key mdl history message ;;
       ret (Success data)
     else if jseq provider (js "deepseek") || jseq provider (js "openai")
     then
       let endpoint := restEndpoint provider in
       let m := restModel provider mdl in
       let messages := wireMessages provider history message in
       emit (FetchCall endpoint key m messages) ;;;
       match fetchAnswer w endpoint key m messages with
       | FetchRejects e => throw e
       | FetchResponds ok statusText body =>
           if negb ok
           then ret (Failure (js "API request failed: " ++ statusText))
           else data <- lift body ;; ret (Success data)
       end
     else ret (Failure (js "Unknown provider")))
    (fun error =>
       emit (ConsoleError (js "Error in makeAIRequest:")) ;;;
       ret (Failure (stringOfError error))).

(** [src/autoReply.tsx]: the adapter before the CSP handling was added, and
    the [generateReply] that calls it. *)
Module Legacy.

Definition makeAICall (w : World) (settings : Settings)
  (history : list ChatHistory) (message : jsstring) : M jsstring :=
  let provider := aiProvider settings in
  let key := apiKey settings in
  let mdl := modelName settings in
  if jseq key []
  then throw (Error (js "API key is required"))
  else if jseq provider (js "gemini")
  then geminiBranch w key mdl history message
  else if jseq provider (js "deepseek") || jseq provider (js "openai")
  then
    let endpoint := restEndpoint provider in
    let m := restModel provider mdl in
    let messages := wireMessages provider history message in
    emit (FetchCall endpoint key m messages) ;;;
    match fetchAnswer w endpoint key m messages with
    | FetchRejects e => throw e
    | FetchResponds ok statusText body =>
        if negb ok
        then throw (Error (js "API request failed: " ++ statusText))
        else lift body
    end
  else
    emit (ConsoleError (js "No such provider!")) ;;;
    ret [].

Definition generateReply (w : World) (settings : Settings)
  (channelId message : jsstring) : M jsstring :=
  tryCatch
    ((if jseq message [] || jseq (trim message) []
      then throw (Error (js "Empty message content"))
      else ret tt) ;;;
     history <- getMessageHistory w settings channelId ;;
     let history := removelast history ++ [latestTurn settings] in
     makeAICall w settings history message)
    logAndRethrow.

End Legacy.

(* ===================================================================== *)
(** ** The gate as a transition system *)
(* ===================================================================== *)

(** The handler is an async function: its synchronous prefix (the gate check
    and [deBounce = true]) runs when the event is dispatched, and its
    [finally] block runs later, other events being dispatched in between.
    [cycles] counts the handler runs that are past the gate and have not yet
    reached the end of [finally]. *)
Record Running := { globals : Globals; cycles : nat }.

Inductive Input :=
| MessageArrives (ev : MessageCreate)      (* MESSAGE_CREATE *)
| ChannelSelected (c : option jsstring)    (* CHANNEL_SELECT *)
| TogglePressed                            (* the chat bar button *)
| AlertTimerFires                          (* the 60 s timer of the catch *)
| CycleFails                               (* a running cycle enters catch *)
| CycleEnds.                               (* a running cycle ends finally *)

Definition withDeBounce (b : bool) (g : Globals) : Globals :=
  {| isStarted := isStarted g; deBounce := b;
     activeChannelId := activeChannelId g;
     hasShownError := hasShownError g |}.

Definition dispatch (w : World) (settings : Settings) (r : Running)
  (i : Input) : Running :=
  let g := globals r in
  match i with
  | MessageArrives ev =>
      if ignored w settings g ev
      then r
      else {| globals := withDeBounce true g; cycles := S (cycles r) |}
  | ChannelSelected c =>
      {| globals :=
           {| isStarted := isStarted g; deBounce := deBounce g;
              activeChannelId := c; hasShownError := hasShownError g |};
         cycles := cycles r |}
  | TogglePressed =>
      {| globals :=
           {| isStarted := negb (isStarted g); deBounce := deBounce g;
              activeChannelId := activeChannelId g;
              hasShownError := hasShownError g |};
         cycles := cycles r |}
  | AlertTimerFires =>
      {| globals :=
           {| isStarted := isStarted g; deBounce := deBounce g;
              activeChannelId := activeChannelId g;
              hasShownError := false |};
         cycles := cycles r |}
  | CycleFails =>
      match cycles r with
      | O => r
      | S _ =>
          {| globals :=
               {| isStarted := isStarted g; deBounce := deBounce g;
                  activeChannelId := activeChannelId g;
                  hasShownError := true |};
             cycles := cycles r |}
      end
  | CycleEnds =>
      match cycles r with
      | O => r
      | S n => {| globals := withDeBounce false g; cycles := n |}
      end
  end.

Definition started : Running := {| globals := initial; cycles := 0 |}.

Definition run (w : World) (settings : Settings) (inputs : list Input)
  : Running :=
  fold_left (dispatch w settings) inputs started.

(** The invariant of the gate: [deBounce] is set exactly while one cycle
    runs, and never more than one runs. *)
Definition gateInvariant (r : Running) : Prop :=
  cycles r = if deBounce (globals r) then 1 else 0.

(** The one attempt of the [try] block of [makeAICall]: what it puts on the
    wire and how it ends, before the [catch] block sees it. *)
Definition adapterAttempt (w : World) (s : Settings)
  (history : list ChatHistory) (message : jsstring)
  : list Event * Result jsstring :=
  let p := aiProvider s in
  if jseq p (js "gemini")
  then
    let m := orElse (modelName s) (js "gemini-2.5-pro") in
    ([GeminiCall (apiKey s) m history message],
     geminiAnswer w (apiKey s) m history message)
  else if jseq p (js "deepseek") || jseq p (js "openai")
  then
    let m := restModel p (modelName s) in
    let messages := wireMessages p history message in
    ([FetchCall (restEndpoint p) (apiKey s) m messages],
     match fetchAnswer w (restEndpoint p) (apiKey s) m messages with
     | FetchRejects e => Throw e
     | FetchResponds ok statusText body =>
         if ok then body
         else Throw (Error (js "API request failed: " ++ statusText))
     end)
  else ([ConsoleError (js "No such provider!")], Ok []).

(** The words that make [makeAICall] take an error for a blocked request. *)
Definition cspKeywords : list jsstring :=
  [js "fetch"; js "network"; js "CORS"; js "blocked"; js "CSP";
   js "violates the following Content Security Policy"].

(** One of the three providers of the settings. *)
Definition knownProvider (p : jsstring) : Prop :=
  p = js "gemini" \/ p = js "deepseek" \/ p = js "openai".

(** What one typing indicator leaves in the trace: nothing when the setting
    is off, else the request, and the log line when the request fails. *)
Definition typingTrace (w : World) (s : Settings) (channel : jsstring)
  : list Event :=
  if showTyping s
  then PostTyping channel ::
       match restPost w channel with
       | Ok _ => []
       | Throw _ => [ConsoleError (js "Error setting typing status:")]
       end
  else [].

(** The messages the splitter hands to the pacer. *)
Definition outbound (reply : jsstring) : list jsstring :=
  if test blankLine reply
  then filter nonBlank (split blankLine reply)
  else [reply].

(** A code unit that is not whitespace. *)
Definition visible (c : code_unit) : bool := negb (isWhiteSpace c).

(** A computation that neither reads nor writes the globals: the same trace
    and the same outcome from every state, the state being left as it is. *)
Definition uniform (A : Type) (m : M A) : Prop :=
  exists t r, forall g, m g = (t, g, r).

(** The same host, its typing requests answered by [f]. *)
Definition withRestPost (w : World) (f : jsstring -> Result unit) : World :=
  {| user_id := user_id w;
     getMessages := getMessages w;
     restPost := f;
     geminiAnswer := geminiAnswer w;
     fetchAnswer := fetchAnswer w;
     sendMessageAnswer := sendMessageAnswer w;
     alertAnswer := alertAnswer w |}.

(** What the [catch] block of [handleMessage] leaves in the trace: the
    alert is shown only when none was shown in the last minute. *)
Definition reportTrace (w : World) (g : Globals) : list Event :=
  ConsoleError (js "Failed to generate or send reply:") ::
  (if hasShownError g
   then []
   else ErrorAlert ::
        match alertAnswer w with
        | Ok _ => [ErrorAlertTimer]
        | Throw _ => []
        end).

(** What the [try] block of the handler may do for an event of channel
    [ch]: typing requests and sends to that channel, provider calls, log
    lines, the CSP dialog and delays. *)
Definition cycleEvent (ch : jsstring) (e : Event) : Prop :=
  match e with
  | PostTyping c => c = ch
  | SendMessage c _ => c = ch
  | GeminiCall _ _ _ _ | FetchCall _ _ _ _ | ConsoleError _ | CspDialog _
  | Sleep _ => True
  | ErrorAlert | ErrorAlertTimer | CooldownSleep _ | SetDeBounce _ => False
  end.

(** Every event of every run of [m] satisfies [P]. *)
Definition traceOnly (A : Type) (P : Event -> Prop) (m : M A) : Prop :=
  forall g, Forall P (fst (fst (m g))).

(** What the handler does itself, around its [try] block. *)
Definition handlerEvent (e : Event) : Prop :=
  match e with
  | ConsoleError _ | ErrorAlert | ErrorAlertTimer | CooldownSleep _
  | SetDeBounce _ => True
  | _ => False
  end.

(** An event that is not the send of a message. *)
Definition notSend (e : Event) : Prop :=
  match e with
  | SendMessage _ _ => False
  | _ => True
  end.

(** An event that is not a provider call. *)
Definition notProviderCall (e : Event) : Prop := isProviderCall e = false.

(** [stop()]: the handlers are unsubscribed and the focused conversation is
    forgotten; the armed flag and the busy flag are left as they are. *)
Definition stop (g : Globals) : Globals :=
  {| isStarted := isStarted g; deBounce := deBounce g;
     activeChannelId := None; hasShownError := hasShownError g |}.

Definition isToggle (i : Input) : bool :=
  match i with
  | TogglePressed => true
  | _ => false
  end.

(** A [CHANNEL_SELECT] event that carries a channel. *)
Definition isFocus (i : Input) : bool :=
  match i with
  | ChannelSelected (Some _) => true
  | _ => false
  end.

(** An entry of a model list of the settings. *)
Record ModelOption := { label : jsstring; value : jsstring }.

Definition modelOption (l v : string) : ModelOption :=
  {| label := js l; value := js v |}.

(** [getAvailableModels]. *)
Definition getAvailableModels (provider : jsstring) : list ModelOption :=
  if jseq provider (js "gemini")
  then [modelOption "Gemini 2.5 Pro" "gemini-2.5-pro";
        modelOption "Gemini 2.5 Flash" "gemini-2.5-flash";
        modelOption "Gemini 1.5 Pro" "gemini-1.5-pro";
        modelOption "Gemini 1.5 Flash" "gemini-1.5-flash"]
  else if jseq provider (js "deepseek")
  then [modelOption "DeepSeek Chat" "deepseek-chat";
        modelOption "DeepSeek Coder" "deepseek-coder"]
  else if jseq provider (js "openai")
  then [modelOption "GPT-3.5 Turbo" "gpt-3.5-turbo";
        modelOption "GPT-4" "gpt-4";
        modelOption "GPT-4 Turbo" "gpt-4-turbo";
        modelOption "GPT-4o" "gpt-4o";
        modelOption "GPT-4o Mini" "gpt-4o-mini"]
  else [].

(** The own properties of [AI_PROVIDER_DOMAINS]. *)
Definition AI_PROVIDER_DOMAINS : list (jsstring * jsstring) :=
  [(js "gemini", js "https://generativelanguage.googleapis.com");
   (js "deepseek", js "https://api.deepseek.com");
   (js "openai", js "https://api.openai.com")].

Fixpoint ownProperty (o : list (jsstring * jsstring)) (key : jsstring)
  : option jsstring :=
  match o with
  | [] => None
  | (k, v) :: r => if jseq k key then Some v else ownProperty r key
  end.

(** What [AI_PROVIDER_DOMAINS[provider]] gives when it is not undefined: the
    domain of a provider, or, for a name that every object inherits
    ([toString], [constructor], ...), the inherited value. *)
Inductive Domain :=
| Url (d : jsstring)
| Inherited (name : jsstring).

(** What [requestCSPOverride] does to the host and writes with
    [console.warn] and [console.error]. *)
Inductive CspEvent :=
| Warn (what : jsstring)
| LogError (what : jsstring)
| RequestAddOverride (d : Domain).
    (* VencordNative.csp.requestAddOverride(domain, ["connect-src"],
       "AutoReply AI Provider") *)

(** The host as [requestCSPOverride] sees it: [pageProtocol] is
    [window.location?.protocol] ([None] without a window or a location), and
    reading it may throw; [nativeOverride] is
    [VencordNative?.csp?.requestAddOverride], [None] when a link is
    missing; [inherited] tells the names that an object literal inherits. *)
Record CspHost := {
  pageProtocol : Result (option jsstring);
  nativeOverride : option (Domain -> Result jsstring);
  inherited : jsstring -> bool
}.

(** [AI_PROVIDER_DOMAINS[provider]]. *)
Definition domainOf (h : CspHost) (provider : jsstring)
  : option Domain :=
  match ownProperty AI_PROVIDER_DOMAINS provider with
  | Some d => Some (Url d)
  | None => if inherited h provider then Some (Inherited provider) else None
  end.

(** [requestCSPOverride]. *)
Definition requestCSPOverride (h : CspHost) (provider : jsstring)
  : list CspEvent * bool :=
  let web :=
    match pageProtocol h with
    | Ok (Some p) => jseq p (js "https:")
    | Ok None => false
    | Throw _ => false
    end in
  if web then ([], true)
  else
    match domainOf h provider with
    | None =>
        ([Warn (js "Domain for provider " ++ provider ++
                js " does not exist!")], false)
    | Some domain =>
        match nativeOverride h with
        | None =>
            ([Warn (js "VencordNative.csp.requestAddOverride not available")],
             false)
        | Some request =>
            match request domain with
            | Ok result =>
                if jseq result (js "ok")
                then ([RequestAddOverride domain], true)
                else ([RequestAddOverride domain;
                       Warn (js "CSP override failed for " ++ provider ++
                             js ": " ++ result)], false)
            | Throw _ =>
                ([RequestAddOverride domain;
                  LogError (js "Error requesting CSP override for " ++
                            provider ++ js ":")], false)
            end
        end
    end.

(** [requestCSPForProvider]: nothing is requested without a provider. *)
Definition requestCSPForProvider (h : CspHost) (provider : jsstring)
  : list CspEvent :=
  match provider with
  | [] => []
  | _ :: _ =>
      let (t, success) := requestCSPOverride h provider in
      if success then t
      else t ++ [Warn (js "Failed to request CSP override for " ++
                       provider ++
                       js ". You may need to manually add the domain or restart Discord if you've already added it.")]
  end.

(** A provider identifier that is none of the three the adapter knows. *)
Definition unknownProvider (p : jsstring) : Prop :=
  p <> js "gemini" /\ p <> js "deepseek" /\ p <> js "openai".

(** A host in which every call succeeds, with [stored] in every channel and
    [answer] from every provider. *)
Definition calmWorld (stored : list Message) (answer : jsstring) : World :=
  {| user_id := js "me";
     getMessages := fun _ => Some stored;
     restPost := fun _ => Ok tt;
     geminiAnswer := fun _ _ _ _ => Ok answer;
     fetchAnswer := fun _ _ _ _ => FetchResponds true (js "OK") (Ok answer);
     sendMessageAnswer := fun _ _ => Ok tt;
     alertAnswer := Ok tt |}.

(** The default settings with a provider and a credential. *)
Definition settingsFor (provider key : jsstring) : Settings :=
  {| enabled := true;
     aiProvider := provider;
     modelName := js "gemini-2.5-pro";
     apiKey := key;
     cooldown := 5;
     customInstructions := js "Maintain a natural, conversational tone.";
     historyLength := 10;
     showTyping := true |}.

Definition fromBob (s : string) : Message :=
  {| author_id := js "bob"; content := js s |}.

(** [\s*\n+] after the first line feed of [blankLine]. *)
Definition tailMatch : jsstring -> option jsstring :=
  star isWhiteSpace (one isLF (star isLF (@Some jsstring))).

Definition allSpace (ws : jsstring) : Prop :=
  Forall (fun c => isWhiteSpace c = true) ws.

(** Spec side of the splitter.  A blank-line separator is a line feed,
    optional whitespace, and one or more line feeds. *)
Definition BlankLineSep (sep : jsstring) : Prop :=
  exists ws n, allSpace ws /\ sep = LF :: ws ++ repeat LF (S n).

Definition StartsSep (s : jsstring) : Prop :=
  exists sep rest, BlankLineSep sep /\ s = sep ++ rest.

Definition HasSep (s : jsstring) : Prop :=
  exists pre tail, s = pre ++ tail /\ StartsSep tail.

(** [Paragraphs s ps]: [ps] are the pieces of [s] between its blank-line
    separators, from left to right, each separator being the first one after
    the previous piece and as long as it can be. *)
Inductive Paragraphs : jsstring -> list jsstring -> Prop :=
| Paragraphs_last s :
    ~ HasSep s -> Paragraphs s [s]
| Paragraphs_cut p sep rest ps :
    BlankLineSep sep ->
    (forall pre tail,
       p = pre ++ tail -> tail <> [] -> ~ StartsSep (tail ++ sep ++ rest)) ->
    (forall sep' rest',
       BlankLineSep sep' -> sep ++ rest = sep' ++ rest' ->
       List.length sep' <= List.length sep) ->
    Paragraphs rest ps ->
    Paragraphs (p ++ sep ++ rest) (p :: ps).

(** Spec side of the empty-turn removal: [Removes drop l out] says that
    [out] is [l] with exactly the elements that [drop] selects taken away,
    the others staying in their relative order. *)
Inductive Removes (A : Type) (drop : A -> bool) : list A -> list A -> Prop :=
| Removes_nil : Removes drop [] []
| Removes_drop x l out :
    drop x = true -> Removes drop l out -> Removes drop (x :: l) out
| Removes_keep x l out :
    drop x = false -> Removes drop l out ->
    Removes drop (x :: l) (x :: out).

(** A text that is empty after trimming. *)
Definition blank (s : jsstring) : bool := jseq (trim s) [].

Unset Implicit Arguments.

(* ===================================================================== *)
(** ** Strings *)
(* ===================================================================== *)

Lemma jseq_eq (a b : jsstring) : jseq a b = true <-> a = b.
Proof.
  revert b; induction a as [|x a IH]; intros [|y b]; simpl;
    try (split; [discriminate | congruence]); [tauto|].
  rewrite andb_true_iff, N.eqb_eq, IH.
  split; [intros [-> ->]; reflexivity | intros H; inversion H; auto].
Qed.

Lemma jseq_refl (a : jsstring) : jseq a a = true.
Proof. apply jseq_eq; reflexivity. Qed.

Lemma jseq_neq (a b : jsstring) : jseq a b = false <-> a <> b.
Proof.
  rewrite <- jseq_eq. destruct (jseq a b); split; congruence.
Qed.

Lemma jseq_nil (a : jsstring) : jseq a [] = true <-> a = [].
Proof. apply jseq_eq. Qed.

Lemma nonBlank_blank (s : jsstring) : nonBlank s = negb (blank s).
Proof. reflexivity. Qed.

(* ===================================================================== *)
(** ** History assembler *)
(* ===================================================================== *)

Lemma filter_Removes {A : Type} (keep : A -> bool) (l : list A) :
  Removes (fun x => negb (keep x)) l (filter keep l).
Proof.
  induction l as [|x l IH]; simpl.
  - constructor.
  - destruct (keep x) eqn:K.
    + apply Removes_keep; [rewrite K; reflexivity | exact IH].
    + apply Removes_drop; [rewrite K; reflexivity | exact IH].
Qed.

Lemma Removes_map {A B : Type} (f : A -> B) (dropA : A -> bool)
  (dropB : B -> bool) (l out : list A) :
  (forall x, dropB (f x) = dropA x) ->
  Removes dropA l out -> Removes dropB (map f l) (map f out).
Proof.
  intros E H; induction H; simpl.
  - constructor.
  - apply Removes_drop; [rewrite E; assumption | assumption].
  - apply Removes_keep; [rewrite E; assumption | assumption].
Qed.

(** What [Removes] pins down: the kept elements, and nothing else. *)
Lemma Removes_filter {A : Type} (drop : A -> bool) (l out : list A) :
  Removes drop l out -> out = filter (fun x => negb (drop x)) l.
Proof.
  induction 1 as [|x l out D _ IH|x l out D _ IH]; simpl.
  - reflexivity.
  - rewrite D; exact IH.
  - rewrite D; simpl; rewrite IH; reflexivity.
Qed.

Lemma msgdict_all_blank (selfId : jsstring) (messages : list Message) :
  forallb (fun m => blank (content m)) messages = true ->
  msgdict selfId messages = [].
Proof.
  unfold msgdict.
  induction messages as [|m ms IH]; simpl; [reflexivity|].
  rewrite andb_true_iff; intros [B R].
  unfold keepTurn at 1; simpl. rewrite nonBlank_blank, B; simpl.
  exact (IH R).
Qed.

Lemma msgdict_texts (selfId : jsstring) (messages : list Message) :
  map text (msgdict selfId messages)
  = filter nonBlank (map content messages).
Proof.
  unfold msgdict.
  induction messages as [|m ms IH]; simpl; [reflexivity|].
  unfold keepTurn at 1; simpl.
  destruct (nonBlank (content m)); simpl; rewrite IH; reflexivity.
Qed.

Lemma assembleWindow_texts (selfId : jsstring) (messages : list Message)
  (out : list ChatHistory) :
  assembleWindow selfId messages = Ok out ->
  map text out = map text (msgdict selfId messages) /\
  tl out = tl (msgdict selfId messages).
Proof.
  unfold assembleWindow.
  destruct (msgdict selfId messages) as [|first rest]; [discriminate|].
  destruct (Role_eqb (role first) model); intros H; inversion H; subst;
    simpl; auto.
Qed.

(** C3, the code at the failing input: on a window that is empty, or whose
    messages are all empty after trimming, [getMessageHistory] does not
    return the empty sequence: reading [msgdict[0].role] throws a
    TypeError. *)
Theorem C3_blank_window_throws (selfId : jsstring) (messages : list Message) :
  forallb (fun m => blank (content m)) messages = true ->
  assembleWindow selfId messages = Throw undefinedRole.
Proof.
  intros H. unfold assembleWindow.
  rewrite (msgdict_all_blank selfId messages H). reflexivity.
Qed.

Lemma C3_blank_window_throws_witness :
  assembleWindow (js "me") [] = Throw undefinedRole /\
  assembleWindow (js "me")
    [{| author_id := js "bob"; content := js "  " |};
     {| author_id := js "me"; content := [] |}] = Throw undefinedRole.
Proof.
  split; apply C3_blank_window_throws; reflexivity.
Defined.

(** The same through [getMessageHistory] itself, for a channel the store
    knows nothing of. *)
Lemma getMessageHistory_no_messages (w : World) (s : Settings)
  (ch : jsstring) (g : Globals) :
  getMessages w ch = None ->
  getMessageHistory w s ch g = ([], g, Throw undefinedRole).
Proof.
  intros H. unfold getMessageHistory, lift, fetchWindow. rewrite H.
  reflexivity.
Qed.

(** C6: when the first turn left by the filter has the assistant role
    ([model]), the assembler returns the same turns with exactly that first
    role rewritten to [user]: same text, same tail; when the first turn is
    already [user], the turns are returned unchanged. *)
Theorem C6_leading_role (selfId : jsstring) (messages : list Message)
  (first : ChatHistory) (rest : list ChatHistory) :
  msgdict selfId messages = first :: rest ->
  exists first',
    assembleWindow selfId messages = Ok (first' :: rest) /\
    role first' = user /\
    text first' = text first /\
    (role first = user -> first' = first).
Proof.
  intros H. unfold assembleWindow. rewrite H.
  destruct first as [[|] t]; simpl.
  - exists {| role := user; text := t |}; auto.
  - exists {| role := user; text := t |}; repeat split; auto.
    discriminate.
Qed.

Lemma C6_leading_role_witness :
  exists first',
    assembleWindow (js "me")
      [{| author_id := js "me"; content := js "hi" |};
       {| author_id := js "me"; content := js "you there?" |};
       {| author_id := js "bob"; content := js "yes" |}]
    = Ok [first';
          {| role := model; text := js "you there?" |};
          {| role := user; text := js "yes" |}] /\
    role first' = user /\
    text first' = js "hi" /\
    (model = user -> first' = {| role := model; text := js "hi" |}).
Proof.
  apply (C6_leading_role (js "me")
           [{| author_id := js "me"; content := js "hi" |};
            {| author_id := js "me"; content := js "you there?" |};
            {| author_id := js "bob"; content := js "yes" |}]
           {| role := model; text := js "hi" |}).
  reflexivity.
Defined.

(** C7: the filter of the assembler takes away exactly the turns whose text
    is empty after trimming and keeps the others in their relative order;
    the returned history has the texts of the kept turns in that order (only
    the role of the first may differ), and the assembler throws only when no
    turn is kept. *)
Theorem C7_removes_blank_turns (selfId : jsstring) (messages : list Message) :
  Removes (fun t => blank (text t))
    (map (toTurn selfId) messages) (msgdict selfId messages) /\
  match assembleWindow selfId messages with
  | Ok out =>
      Removes blank (map content messages) (map text out) /\
      tl out = tl (msgdict selfId messages)
  | Throw _ => msgdict selfId messages = []
  end.
Proof.
  assert (R : Removes (fun t => blank (text t))
                (map (toTurn selfId) messages) (msgdict selfId messages)).
  { unfold msgdict.
    assert (E : forall t, blank (text t) = negb (keepTurn t)).
    { intros t. unfold keepTurn. rewrite nonBlank_blank, negb_involutive.
      reflexivity. }
    generalize (filter_Removes keepTurn (map (toTurn selfId) messages)).
    generalize (filter keepTurn (map (toTurn selfId) messages)).
    generalize (map (toTurn selfId) messages).
    intros l out H; induction H.
    - constructor.
    - apply Removes_drop; [rewrite E; assumption | assumption].
    - apply Removes_keep; [rewrite E; assumption | assumption]. }
  split; [exact R|].
  destruct (assembleWindow selfId messages) as [out|e] eqn:A.
  - destruct (assembleWindow_texts _ _ _ A) as [T L].
    split; [|exact L].
    rewrite T.
    assert (M : map text (map (toTurn selfId) messages)
                = map content messages).
    { rewrite map_map. reflexivity. }
    rewrite <- M.
    apply Removes_map with (dropA := fun t => blank (text t)); auto.
  - unfold assembleWindow in A.
    destruct (msgdict selfId messages) as [|first rest]; [reflexivity|].
    destruct (Role_eqb (role first) model); discriminate.
Qed.

(* ===================================================================== *)
(** ** Provider adapter *)
(* ===================================================================== *)

Lemma unknownProvider_tests (p : jsstring) :
  unknownProvider p ->
  jseq p (js "gemini") = false /\
  jseq p (js "deepseek") = false /\
  jseq p (js "openai") = false.
Proof.
  intros (G & D & O). repeat split; apply jseq_neq; assumption.
Qed.

(** The native helper answers an unknown provider with the structured
    failure ["Unknown provider"] and calls nothing. *)
Lemma makeAIRequest_unknown_provider (w : World) (p key mdl : jsstring)
  (history : list ChatHistory) (message : jsstring) (g : Globals) :
  unknownProvider p ->
  makeAIRequest w p key mdl history message g
  = ([], g, Ok (Failure (js "Unknown provider"))).
Proof.
  intros U. destruct (unknownProvider_tests _ U) as (G & D & O).
  unfold makeAIRequest, tryCatch. rewrite G, D, O. reflexivity.
Qed.

(** C4, the code at the failing input: with a credential set and a provider
    that is none of gemini, deepseek and openai, [makeAICall] calls no
    provider and throws nothing, but it returns no error either: it logs
    ["No such provider!"] and returns the empty string as the reply. *)
Theorem C4_unknown_provider_returns_empty (w : World) (s : Settings)
  (history : list ChatHistory) (message : jsstring) (g : Globals) :
  apiKey s <> [] ->
  unknownProvider (aiProvider s) ->
  makeAICall w s history message g
  = ([ConsoleError (js "No such provider!")], g, Ok []).
Proof.
  intros K U. destruct (unknownProvider_tests _ U) as (G & D & O).
  apply jseq_neq in K.
  unfold makeAICall. rewrite K.
  unfold tryCatch. rewrite G, D, O. reflexivity.
Qed.

(** C5: with an empty credential [makeAICall] throws ["API key is
    required"] before anything else happens, and a whole [generateReply]
    then fails without a single call to the HTTP/SDK layer of a provider. *)
Theorem C5_missing_credential (w : World) (s : Settings)
  (history : list ChatHistory) (message : jsstring) (g : Globals) :
  apiKey s = [] ->
  makeAICall w s history message g
  = ([], g, Throw (Error (js "API key is required"))) /\
  forall channel,
  exists t e,
    generateReply w s channel message g = (t, g, Throw e) /\
    providerCalls t = [].
Proof.
  intros K.
  assert (C : forall h, makeAICall w s h message g
                        = ([], g, Throw (Error (js "API key is required")))).
  { intros h. unfold makeAICall. rewrite K. reflexivity. }
  split; [apply C|].
  intros channel.
  unfold generateReply, tryCatch, bind, getMessageHistory, lift.
  destruct (jseq message [] || jseq (trim message) []); simpl.
  - eexists; eexists; split; reflexivity.
  - destruct (assembleWindow _ _) as [h|e]; simpl.
    + rewrite C. simpl. eexists; eexists; split; reflexivity.
    + eexists; eexists; split; reflexivity.
Qed.

Lemma C4_unknown_provider_returns_empty_witness :
  makeAICall (calmWorld [] (js "sure")) (settingsFor (js "claude") (js "k"))
    [] (js "hi") initial
  = ([ConsoleError (js "No such provider!")], initial, Ok []).
Proof.
  apply C4_unknown_provider_returns_empty.
  - discriminate.
  - repeat split; discriminate.
Defined.

Lemma C5_missing_credential_witness :
  makeAICall (calmWorld [fromBob "hi"] (js "sure"))
    (settingsFor (js "gemini") []) [] (js "hi") initial
  = ([], initial, Throw (Error (js "API key is required"))) /\
  forall channel,
  exists t e,
    generateReply (calmWorld [fromBob "hi"] (js "sure"))
      (settingsFor (js "gemini") []) channel (js "hi") initial
    = (t, initial, Throw e) /\
    providerCalls t = [].
Proof.
  apply C5_missing_credential. reflexivity.
Defined.

(** The older adapter answers an unknown provider and a missing credential
    in the same way. *)
Lemma legacy_unknown_provider (w : World) (s : Settings)
  (history : list ChatHistory) (message : jsstring) (g : Globals) :
  apiKey s <> [] ->
  unknownProvider (aiProvider s) ->
  Legacy.makeAICall w s history message g
  = ([ConsoleError (js "No such provider!")], g, Ok []).
Proof.
  intros K U. destruct (unknownProvider_tests _ U) as (G & D & O).
  apply jseq_neq in K.
  unfold Legacy.makeAICall. rewrite K, G, D, O. reflexivity.
Qed.

Lemma legacy_missing_credential (w : World) (s : Settings)
  (history : list ChatHistory) (message : jsstring) (g : Globals) :
  apiKey s = [] ->
  Legacy.makeAICall w s history message g
  = ([], g, Throw (Error (js "API key is required"))).
Proof.
  intros K. unfold Legacy.makeAICall. rewrite K. reflexivity.
Qed.

(* ===================================================================== *)
(** ** generateReply *)
(* ===================================================================== *)

Lemma blank_nil : blank [] = true.
Proof. reflexivity. Qed.

Lemma not_blank_guard (message : jsstring) :
  blank message = false ->
  jseq message [] || jseq (trim message) [] = false.
Proof.
  intros B. apply orb_false_iff; split; [|exact B].
  apply jseq_neq. intros ->. rewrite blank_nil in B. discriminate.
Qed.

Lemma map_eq_snoc {A B : Type} (f : A -> B) (l : list A) (xs : list B)
  (y : B) :
  map f l = xs ++ [y] ->
  exists l' z, l = l' ++ [z] /\ map f l' = xs /\ f z = y.
Proof.
  intros H. destruct (map_eq_app _ _ _ _ H) as (l1 & l2 & -> & M1 & M2).
  destruct l2 as [|z [|z' l2]]; try discriminate.
  exists l1, z. inversion M2. auto.
Qed.

Lemma providerCalls_app (a b : list Event) :
  providerCalls (a ++ b) = providerCalls a ++ providerCalls b.
Proof. apply filter_app. Qed.

(** A [catch] block that calls no provider adds no provider call. *)
Lemma tryCatch_calls {A : Type} (m : M A) (h : JsError -> M A)
  (g : Globals) :
  (forall e g1, providerCalls (fst (fst (h e g1))) = []) ->
  providerCalls (fst (fst (tryCatch m h g)))
  = providerCalls (fst (fst (m g))).
Proof.
  intros H. unfold tryCatch.
  destruct (m g) as [[t g1] [a|e]]; simpl; [reflexivity|].
  specialize (H e g1). destruct (h e g1) as [[t' g2] r]; simpl in *.
  rewrite providerCalls_app, H. apply app_nil_r.
Qed.

Lemma cspCheck_calls (w : World) (p : jsstring) (e : JsError)
  (g : Globals) :
  providerCalls (fst (fst (cspCheck w p e g))) = [].
Proof.
  unfold cspCheck, bind, handleCSPError, emit, lift, throw, ret.
  destruct (negb (jseq (errorMessage e) []) && cspLike (errorMessage e));
    [|reflexivity].
  destruct (negb (jseq p [])); [|reflexivity].
  destruct (alertAnswer w); reflexivity.
Qed.

Lemma logAndRethrow_calls (e : JsError) (g : Globals) :
  providerCalls (fst (fst (logAndRethrow e g))) = [].
Proof. reflexivity. Qed.

(** What the provider branches put on the wire, whatever the outcome. *)
Lemma makeAICall_provider_calls (w : World) (s : Settings)
  (history : list ChatHistory) (message : jsstring) (g : Globals)
  (e : Event) :
  In e (providerCalls (fst (fst (makeAICall w s history message g)))) ->
  e = GeminiCall (apiKey s) (orElse (modelName s) (js "gemini-2.5-pro"))
        history message \/
  e = FetchCall (restEndpoint (aiProvider s)) (apiKey s)
        (restModel (aiProvider s) (modelName s))
        (wireMessages (aiProvider s) history message).
Proof.
  unfold makeAICall.
  destruct (jseq (apiKey s) []); [simpl; tauto|].
  rewrite tryCatch_calls by apply cspCheck_calls.
  unfold bind, geminiBranch, emit, lift, throw, ret.
  destruct (jseq (aiProvider s) (js "gemini")).
  - destruct (geminiAnswer w _ _ _ _); simpl; intros [<-|[]]; auto.
  - destruct (jseq (aiProvider s) (js "deepseek")
              || jseq (aiProvider s) (js "openai")); [|simpl; tauto].
    destruct (fetchAnswer w _ _ _ _) as [err|ok st body];
      [|destruct ok; [destruct body|]];
      simpl; intros [<-|[]]; auto.
Qed.


(** C10, as amended: for a trigger message that is not blank and a channel
    whose assembled window [h] exists, [generateReply] calls the adapter with
    the history [h] without its last turn, followed by one [user] turn
    holding the custom instructions, and with the trigger as the separate
    message; these are the history and the message of every provider call
    made; and when the most recent message of the fetched window is the
    trigger, the turn removed is the trigger's own, the history that is
    sent holding the turns of the older messages only. *)
Theorem C10_dispatched_history (w : World) (s : Settings)
  (channel message : jsstring) (g : Globals) (h : list ChatHistory) :
  blank message = false ->
  assembleWindow (user_id w)
    (fetchWindow (getMessages w channel) (historyLength s)) = Ok h ->
  let dispatched := removelast h ++ [latestTurn s] in
  generateReply w s channel message g
  = tryCatch (makeAICall w s dispatched message) logAndRethrow g /\
  (forall e,
     In e (providerCalls
             (fst (fst (generateReply w s channel message g)))) ->
     e = GeminiCall (apiKey s) (orElse (modelName s) (js "gemini-2.5-pro"))
           dispatched message \/
     e = FetchCall (restEndpoint (aiProvider s)) (apiKey s)
           (restModel (aiProvider s) (modelName s))
           (wireMessages (aiProvider s) dispatched message)) /\
  (forall older latest,
     fetchWindow (getMessages w channel) (historyLength s)
     = older ++ [latest] ->
     content latest = message ->
     exists r,
       h = removelast h ++ [{| role := r; text := message |}] /\
       map text (removelast h) = filter nonBlank (map content older)).
Proof.
  intros B A dispatched.
  assert (E : generateReply w s channel message g
              = tryCatch (makeAICall w s dispatched message)
                  logAndRethrow g).
  { unfold generateReply, tryCatch at 1, bind at 1.
    rewrite (not_blank_guard _ B).
    unfold bind, ret, getMessageHistory, lift. rewrite A. simpl.
    unfold tryCatch. fold dispatched.
    destruct (makeAICall w s dispatched message g) as [[t g1] [a|e]];
      reflexivity. }
  split; [exact E|]. split.
  - intros e. rewrite E, tryCatch_calls by apply logAndRethrow_calls.
    apply makeAICall_provider_calls.
  - intros older latest F C.
    destruct (assembleWindow_texts _ _ _ A) as [T _].
    rewrite msgdict_texts, F, map_app, filter_app in T. simpl in T.
    rewrite C in T. rewrite nonBlank_blank, B in T. simpl in T.
    destruct (map_eq_snoc _ _ _ _ T) as (h' & z & -> & M & Z).
    rewrite removelast_last.
    exists (role z). split; [|exact M].
    destruct z as [r t]; simpl in *. subst t. reflexivity.
Qed.

Lemma C10_dispatched_history_witness :
  let w := calmWorld [fromBob "hello"; fromBob "how are you?"] (js "fine") in
  let s := settingsFor (js "gemini") (js "k") in
  let h := [{| role := user; text := js "hello" |};
            {| role := user; text := js "how are you?" |}] in
  let dispatched := removelast h ++ [latestTurn s] in
  generateReply w s (js "c") (js "how are you?") initial
  = tryCatch (makeAICall w s dispatched (js "how are you?"))
      logAndRethrow initial /\
  (forall e,
     In e (providerCalls
             (fst (fst (generateReply w s (js "c") (js "how are you?")
                          initial)))) ->
     e = GeminiCall (apiKey s) (orElse (modelName s) (js "gemini-2.5-pro"))
           dispatched (js "how are you?") \/
     e = FetchCall (restEndpoint (aiProvider s)) (apiKey s)
           (restModel (aiProvider s) (modelName s))
           (wireMessages (aiProvider s) dispatched (js "how are you?"))) /\
  (forall older latest,
     fetchWindow (getMessages w (js "c")) (historyLength s)
     = older ++ [latest] ->
     content latest = js "how are you?" ->
     exists r,
       h = removelast h ++ [{| role := r; text := js "how are you?" |}] /\
       map text (removelast h) = filter nonBlank (map content older)).
Proof.
  intros w s h.
  apply (@C10_dispatched_history w s (js "c") (js "how are you?") initial h);
    reflexivity.
Defined.

(** C10 as stated fails: when another message has reached the store after
    the trigger, the turn removed is that other message's, and the history
    sent to the provider holds the trigger itself. *)
Lemma C10_trigger_in_history :
  let w := calmWorld [fromBob "hi"; fromBob "anyone?"] (js "fine") in
  let s := settingsFor (js "gemini") (js "k") in
  exists history,
    fst (fst (generateReply w s (js "c") (js "hi") initial))
    = [GeminiCall (js "k") (js "gemini-2.5-pro") history (js "hi")] /\
    In {| role := user; text := js "hi" |} history.
Proof.
  eexists. split; [vm_compute; reflexivity|].
  left. reflexivity.
Qed.

(** The older [generateReply] hands the same history and message to its
    adapter. *)
Lemma legacy_dispatched_history (w : World) (s : Settings)
  (channel message : jsstring) (g : Globals) (h : list ChatHistory) :
  blank message = false ->
  assembleWindow (user_id w)
    (fetchWindow (getMessages w channel) (historyLength s)) = Ok h ->
  Legacy.generateReply w s channel message g
  = tryCatch
      (Legacy.makeAICall w s (removelast h ++ [latestTurn s]) message)
      logAndRethrow g.
Proof.
  intros B A.
  unfold Legacy.generateReply, tryCatch at 1, bind at 1.
  rewrite (not_blank_guard _ B).
  unfold bind, ret, getMessageHistory, lift. rewrite A. simpl.
  unfold tryCatch.
  destruct (Legacy.makeAICall w s _ message g) as [[t g1] [a|e]];
    reflexivity.
Qed.

(* ===================================================================== *)
(** ** The gate *)
(* ===================================================================== *)

(** A message that arrives while [deBounce] is set is ignored. *)
Lemma ignored_while_busy (w : World) (s : Settings) (g : Globals)
  (ev : MessageCreate) :
  deBounce g = true -> ignored w s g ev = true.
Proof.
  intros B. unfold ignored. rewrite B.
  repeat rewrite orb_true_r. reflexivity.
Qed.

Lemma dispatch_invariant (w : World) (s : Settings) (r : Running)
  (i : Input) :
  gateInvariant r -> gateInvariant (dispatch w s r i).
Proof.
  unfold gateInvariant. intros I.
  destruct i as [ev|c| | | |]; simpl; try exact I.
  - destruct (ignored w s (globals r) ev) eqn:G; [exact I|].
    simpl. destruct (deBounce (globals r)) eqn:B.
    + rewrite (ignored_while_busy w s (globals r) ev B) in G. discriminate.
    + rewrite I. reflexivity.
  - destruct (cycles r) eqn:C; simpl; rewrite ?C; exact I.
  - destruct (cycles r) as [|n] eqn:C; simpl; rewrite ?C; [exact I|].
    destruct (deBounce (globals r)); congruence.
Qed.

Lemma fold_invariant (w : World) (s : Settings) (inputs : list Input)
  (r : Running) :
  gateInvariant r -> gateInvariant (fold_left (dispatch w s) inputs r).
Proof.
  revert r. induction inputs as [|i inputs IH]; intros r I; simpl.
  - exact I.
  - apply IH, dispatch_invariant, I.
Qed.

Lemma run_invariant (w : World) (s : Settings) (inputs : list Input) :
  gateInvariant (run w s inputs).
Proof. apply fold_invariant. reflexivity. Qed.

(** C1: after any sequence of events at most one generate-and-reply cycle
    is running, and while [deBounce] is set exactly one is, every further
    message event leaves the state as it is, starts no cycle, and the
    handler returns at once with an empty trace. *)
Theorem C1_one_cycle_in_flight (w : World) (s : Settings)
  (inputs : list Input) :
  let r := run w s inputs in
  cycles r <= 1 /\
  (deBounce (globals r) = true ->
   cycles r = 1 /\
   forall ev,
     dispatch w s r (MessageArrives ev) = r /\
     handleMessage w s ev (globals r) = ([], globals r, Ok tt)).
Proof.
  intros r. pose proof (run_invariant w s inputs) as I. fold r in I.
  unfold gateInvariant in I. split.
  - destruct (deBounce (globals r)); lia.
  - intros B. rewrite B in I. split; [exact I|].
    intros ev. unfold handleMessage. simpl.
    rewrite (ignored_while_busy w s (globals r) ev B). auto.
Qed.

Lemma C1_one_cycle_in_flight_witness :
  let w := calmWorld [fromBob "hi"] (js "hello") in
  let s := settingsFor (js "gemini") (js "k") in
  let first := {| channelId := js "c"; author := Some (js "bob");
                  messageContent := js "hi" |} in
  let r := run w s [TogglePressed; ChannelSelected (Some (js "c"));
                    MessageArrives first] in
  cycles r = 1 /\
  forall ev,
    dispatch w s r (MessageArrives ev) = r /\
    handleMessage w s ev (globals r) = ([], globals r, Ok tt).
Proof.
  intros w s first r.
  exact (proj2 (C1_one_cycle_in_flight w s
                  [TogglePressed; ChannelSelected (Some (js "c"));
                   MessageArrives first])
               eq_refl).
Defined.

(** The [finally] block always completes: the cooldown, then the release. *)
Lemma coolDown_run (s : Settings) (g : Globals) :
  coolDown s g
  = ([CooldownSleep (cooldown s); SetDeBounce false],
     withDeBounce false g, Ok tt).
Proof. reflexivity. Qed.

(** C2: every run of the handler that passes the gate sets [deBounce], and
    however the reply cycle ends (a single send, the early return of the
    multi-part path, or any error, also one thrown by the [catch] block),
    the last two things it does are the cooldown delay and the reset of
    [deBounce], which is false in the final state. *)
Theorem C2_gate_released (w : World) (s : Settings) (ev : MessageCreate)
  (g : Globals) :
  ignored w s g ev = false ->
  exists t g' r,
    handleMessage w s ev g
    = (SetDeBounce true :: t ++
         [CooldownSleep (cooldown s); SetDeBounce false],
       g', r) /\
    deBounce g' = false.
Proof.
  intros G. unfold handleMessage. rewrite G.
  unfold bind at 1. unfold setDeBounce at 1.
  unfold tryFinally.
  destruct (tryCatch (replyCycle w s ev) (reportFailure w) _)
    as [[t g1] r].
  rewrite coolDown_run.
  exists t, (withDeBounce false g1), r. split; reflexivity.
Qed.

Lemma C2_gate_released_witness :
  let w := calmWorld [fromBob "hi"] (js "hello") in
  let s := settingsFor (js "gemini") (js "k") in
  let g := {| isStarted := true; deBounce := false;
              activeChannelId := Some (js "c"); hasShownError := false |} in
  let ev := {| channelId := js "c"; author := Some (js "bob");
               messageContent := js "hi" |} in
  exists t g' r,
    handleMessage w s ev g
    = (SetDeBounce true :: t ++
         [CooldownSleep (cooldown s); SetDeBounce false],
       g', r) /\
    deBounce g' = false.
Proof.
  intros w s g ev. apply C2_gate_released. reflexivity.
Defined.

(** The three ways a cycle can end, run on concrete worlds. *)
Example cycle_single_send :
  let w := calmWorld [fromBob "hi"] (js "Just one line.") in
  let s := settingsFor (js "gemini") (js "k") in
  let g := {| isStarted := true; deBounce := false;
              activeChannelId := Some (js "c"); hasShownError := false |} in
  let ev := {| channelId := js "c"; author := Some (js "bob");
               messageContent := js "hi" |} in
  handleMessage w s ev g
  = ([SetDeBounce true;
      PostTyping (js "c");
      GeminiCall (js "k") (js "gemini-2.5-pro")
        [{| role := user; text := customInstructions s |}] (js "hi");
      PostTyping (js "c");
      Sleep 14;
      SendMessage (js "c") (js "Just one line.");
      CooldownSleep 5;
      SetDeBounce false],
     g, Ok tt).
Proof. vm_compute. reflexivity. Qed.

Example cycle_failure :
  let w := calmWorld [] (js "unused") in
  let s := settingsFor (js "gemini") (js "k") in
  let g := {| isStarted := true; deBounce := false;
              activeChannelId := Some (js "c"); hasShownError := false |} in
  let ev := {| channelId := js "c"; author := Some (js "bob");
               messageContent := js "hi" |} in
  handleMessage w s ev g
  = ([SetDeBounce true;
      PostTyping (js "c");
      ConsoleError (js "Error generating reply:");
      ConsoleError (js "Failed to generate or send reply:");
      ErrorAlert;
      ErrorAlertTimer;
      CooldownSleep 5;
      SetDeBounce false],
     {| isStarted := true; deBounce := false;
        activeChannelId := Some (js "c"); hasShownError := true |},
     Ok tt).
Proof. vm_compute. reflexivity. Qed.

(** C9, as amended: [deBounce] goes from false to true at the start of the
    handling of a message event only when the plugin is enabled, the armed
    flag [isStarted] is true, the event's channel is the focused
    conversation, the message has a non-empty author id, and that author is
    not the local user. *)
Theorem C9_gate_opens_only_when (w : World) (s : Settings) (r : Running)
  (ev : MessageCreate) :
  deBounce (globals r) = false ->
  deBounce (globals (dispatch w s r (MessageArrives ev))) = true ->
  enabled s = true /\
  isStarted (globals r) = true /\
  activeChannelId (globals r) = Some (channelId ev) /\
  (exists id, author ev = Some id /\ id <> [] /\ id <> user_id w).
Proof.
  intros B. simpl.
  destruct (ignored w s (globals r) ev) eqn:G; [congruence|].
  intros _. unfold ignored in G.
  repeat (apply orb_false_iff in G; destruct G as [G ?]).
  apply negb_false_iff in G.
  repeat split; auto.
  - apply negb_false_iff; assumption.
  - unfold otherChannel in *.
    destruct (activeChannelId (globals r)) as [c|]; [|discriminate].
    f_equal. symmetry. apply jseq_eq. apply negb_false_iff. assumption.
  - destruct (author ev) as [id|]; [|discriminate].
    exists id. split; [reflexivity|].
    match goal with
    | A : _ || _ = false |- _ =>
        apply orb_false_iff in A; destruct A as [NotEmpty NotSelf]
    end.
    split; apply jseq_neq; assumption.
Qed.

Lemma C9_gate_opens_only_when_witness :
  let w := calmWorld [fromBob "hi"] (js "hello") in
  let s := settingsFor (js "gemini") (js "k") in
  let r := {| globals := {| isStarted := true; deBounce := false;
                            activeChannelId := Some (js "c");
                            hasShownError := false |};
              cycles := 0 |} in
  let ev := {| channelId := js "c"; author := Some (js "bob");
               messageContent := js "hi" |} in
  enabled s = true /\
  isStarted (globals r) = true /\
  activeChannelId (globals r) = Some (channelId ev) /\
  (exists id, author ev = Some id /\ id <> [] /\ id <> user_id w).
Proof.
  intros w s r ev. apply (@C9_gate_opens_only_when w s r ev); reflexivity.
Defined.

(** C9 as stated fails: the gate does not look at the content, so a message
    with empty content sets [deBounce] like any other. *)
Lemma C9_empty_content_opens_gate :
  ~ (forall (w : World) (s : Settings) (r : Running) (ev : MessageCreate),
       deBounce (globals r) = false ->
       deBounce (globals (dispatch w s r (MessageArrives ev))) = true ->
       isStarted (globals r) = true /\
       activeChannelId (globals r) = Some (channelId ev) /\
       (exists id, author ev = Some id /\ id <> []) /\
       messageContent ev <> [] /\
       author ev <> Some (user_id w)).
Proof.
  intros H.
  specialize (H (calmWorld [] (js "hello"))
                (settingsFor (js "gemini") (js "k"))
                {| globals := {| isStarted := true; deBounce := false;
                                 activeChannelId := Some (js "c");
                                 hasShownError := false |};
                   cycles := 0 |}
                {| channelId := js "c"; author := Some (js "bob");
                   messageContent := [] |}
                eq_refl eq_refl).
  destruct H as (_ & _ & _ & C & _). apply C. reflexivity.
Qed.

(* ===================================================================== *)
(** ** The blank-line pattern *)
(* ===================================================================== *)

Lemma isLF_eq (c : code_unit) : isLF c = true <-> c = LF.
Proof. unfold isLF. apply N.eqb_eq. Qed.

Lemma isLF_space (c : code_unit) : isLF c = true -> isWhiteSpace c = true.
Proof. intros H. apply isLF_eq in H. subst c. reflexivity. Qed.

Lemma matchHere_blankLine (s : jsstring) :
  matchHere blankLine s = one isLF tailMatch s.
Proof. reflexivity. Qed.

(** [\n*] takes every leading line feed and always succeeds. *)
Lemma star_isLF (s : jsstring) :
  exists n e,
    s = repeat LF n ++ e /\ star isLF (@Some jsstring) s = Some e.
Proof.
  induction s as [|c r (n & e & E & H)]; simpl.
  - exists 0, []. auto.
  - destruct (isLF c) eqn:L.
    + apply isLF_eq in L. subst c. rewrite H.
      exists (S n), e. simpl. rewrite <- E. auto.
    + exists 0, (c :: r). auto.
Qed.

Lemma tailMatch_cons (c : code_unit) (r : jsstring) :
  tailMatch (c :: r)
  = if isWhiteSpace c
    then match tailMatch r with
         | Some e => Some e
         | None => if isLF c then star isLF (@Some jsstring) r else None
         end
    else None.
Proof.
  unfold tailMatch. simpl.
  destruct (isWhiteSpace c) eqn:W; [reflexivity|].
  destruct (isLF c) eqn:L; [|reflexivity].
  rewrite (isLF_space _ L) in W. discriminate.
Qed.

Lemma tailMatch_nil : tailMatch [] = None.
Proof. reflexivity. Qed.

Lemma tailMatch_after_LFs (n : nat) (e : jsstring) :
  tailMatch (repeat LF n ++ e) = None -> tailMatch e = None.
Proof.
  induction n as [|n IH]; cbn [repeat app]; [auto|].
  rewrite tailMatch_cons.
  change (isWhiteSpace LF) with true. cbv iota.
  destruct (tailMatch (repeat LF n ++ e)); [discriminate|auto].
Qed.

(** A match of [\s*\n+]: whitespace, line feeds, and a rest at which the
    pattern cannot match again, so that the match is the longest one. *)
Lemma tailMatch_some (s e : jsstring) :
  tailMatch s = Some e ->
  exists ws n,
    allSpace ws /\ s = ws ++ repeat LF (S n) ++ e /\ tailMatch e = None.
Proof.
  revert e. induction s as [|c r IH]; intros e; [discriminate|].
  rewrite tailMatch_cons.
  destruct (isWhiteSpace c) eqn:W; [|discriminate].
  destruct (tailMatch r) as [e'|] eqn:T.
  - intros H; inversion H; subst e'.
    destruct (IH e eq_refl) as (ws & n & A & E & N).
    exists (c :: ws), n. repeat split; auto.
    + constructor; assumption.
    + simpl. rewrite E. reflexivity.
  - destruct (isLF c) eqn:L; [|discriminate].
    apply isLF_eq in L. subst c. intros H.
    destruct (star_isLF r) as (n & e' & E & H').
    rewrite H' in H. inversion H; subst e'.
    exists [], n. repeat split.
    + constructor.
    + simpl. rewrite E. reflexivity.
    + apply tailMatch_after_LFs with (n := n). rewrite <- E. exact T.
Qed.

(** [\s*\n+] fails exactly when no line feed follows leading whitespace. *)
Lemma tailMatch_none (s : jsstring) :
  tailMatch s = None <->
  ~ (exists ws r, allSpace ws /\ s = ws ++ LF :: r).
Proof.
  split.
  - induction s as [|c r IH]; intros T (ws & r' & A & E).
    + destruct ws; discriminate.
    + rewrite tailMatch_cons in T.
      destruct ws as [|c' ws]; simpl in E; inversion E; subst.
      * simpl in T. destruct (tailMatch r'); [discriminate|].
        destruct (star_isLF r') as (n & e & _ & H). rewrite H in T.
        discriminate.
      * inversion A; subst.
        match goal with W : isWhiteSpace _ = true |- _ => rewrite W in T end.
        destruct (tailMatch (ws ++ LF :: r')) eqn:T'; [discriminate|].
        apply IH; [reflexivity|]. exists ws, r'. auto.
  - intros N. destruct (tailMatch s) as [e|] eqn:T; [|reflexivity].
    exfalso. apply N.
    destruct (tailMatch_some _ _ T) as (ws & n & A & E & _).
    exists ws, (repeat LF n ++ e). auto.
Qed.

Lemma BlankLineSep_space (sep : jsstring) :
  BlankLineSep sep -> allSpace sep.
Proof.
  intros (ws & n & A & ->). constructor; [reflexivity|].
  apply Forall_app; split; [exact A|].
  apply Forall_forall. intros c H. apply repeat_spec in H. subst c.
  reflexivity.
Qed.

Lemma BlankLineSep_ends (sep : jsstring) :
  BlankLineSep sep -> exists front, sep = front ++ [LF].
Proof.
  intros (ws & n & _ & ->).
  exists (LF :: ws ++ repeat LF n).
  cbn [repeat]. rewrite repeat_cons. cbn [app]. rewrite app_assoc.
  reflexivity.
Qed.

Lemma StartsSep_iff (s : jsstring) :
  StartsSep s <->
  exists r, s = LF :: r /\ exists ws r', allSpace ws /\ r = ws ++ LF :: r'.
Proof.
  split.
  - intros (sep & rest & (ws & n & A & ->) & ->).
    exists (ws ++ repeat LF (S n) ++ rest). split.
    + simpl. rewrite <- app_assoc. reflexivity.
    + exists ws, (repeat LF n ++ rest). auto.
  - intros (r & -> & ws & r' & A & ->).
    exists (LF :: ws ++ repeat LF 1), r'. split.
    + exists ws, 0. auto.
    + simpl. rewrite <- app_assoc. reflexivity.
Qed.

(** The pattern fails at a position exactly when no separator starts
    there. *)
Lemma matchHere_none (s : jsstring) :
  matchHere blankLine s = None <-> ~ StartsSep s.
Proof.
  rewrite matchHere_blankLine, StartsSep_iff.
  destruct s as [|c r]; simpl.
  - split; [intros _ (r & E & _); discriminate | reflexivity].
  - destruct (isLF c) eqn:L.
    + apply isLF_eq in L. subst c. rewrite tailMatch_none.
      split.
      * intros N (r0 & E & H). inversion E; subst. auto.
      * intros N H. apply N. exists r. auto.
    + split; [|reflexivity].
      intros _ (r0 & E & _). inversion E; subst. discriminate.
Qed.

(** A match is a separator, and the longest one at its position. *)
Lemma matchHere_some (s e : jsstring) :
  matchHere blankLine s = Some e ->
  exists sep,
    BlankLineSep sep /\ s = sep ++ e /\ tailMatch e = None.
Proof.
  rewrite matchHere_blankLine.
  destruct s as [|c r]; simpl; [discriminate|].
  destruct (isLF c) eqn:L; [|discriminate].
  apply isLF_eq in L. subst c. intros T.
  destruct (tailMatch_some _ _ T) as (ws & n & A & E & N).
  exists (LF :: ws ++ repeat LF (S n)). repeat split; auto.
  - exists ws, n. auto.
  - simpl. rewrite <- app_assoc. simpl in E. rewrite E. reflexivity.
Qed.

Lemma matchHere_shorter (s e : jsstring) :
  matchHere blankLine s = Some e -> List.length e + 2 <= List.length s.
Proof.
  intros H. destruct (matchHere_some _ _ H) as (sep & (ws & n & _ & ->) & -> & _).
  simpl. rewrite !length_app. simpl. lia.
Qed.

Lemma StartsSep_nil : ~ StartsSep [].
Proof. rewrite StartsSep_iff. intros (r & E & _). discriminate. Qed.

Lemma matchHere_StartsSep (s e : jsstring) :
  matchHere blankLine s = Some e -> StartsSep s.
Proof.
  intros H. destruct (matchHere_some _ _ H) as (sep & B & E & _).
  exists sep, e. auto.
Qed.

Lemma test_step (re : Pattern) (s : jsstring) :
  test re s
  = match matchHere re s with
    | Some _ => true
    | None => match s with
              | [] => false
              | _ :: r => test re r
              end
    end.
Proof. destruct s; reflexivity. Qed.

(** [test] finds a match exactly when the string holds a separator. *)
Lemma test_HasSep (s : jsstring) :
  test blankLine s = true <-> HasSep s.
Proof.
  induction s as [|c r IH]; rewrite test_step.
  - destruct (matchHere blankLine []) eqn:T; [discriminate|].
    split; [discriminate|].
    intros (pre & tail & E & S).
    symmetry in E. apply app_eq_nil in E. destruct E as [_ ->].
    destruct (StartsSep_nil S).
  - destruct (matchHere blankLine (c :: r)) as [e|] eqn:T.
    + split; [|reflexivity]. intros _.
      exists [], (c :: r). split; [reflexivity|].
      exact (matchHere_StartsSep _ _ T).
    + rewrite IH. split.
      * intros (pre & tail & -> & S). exists (c :: pre), tail. auto.
      * intros ([|c' pre] & tail & E & S); simpl in E.
        -- subst tail. apply matchHere_none in T. destruct (T S).
        -- inversion E; subst. exists pre, tail. auto.
Qed.

Lemma splitLoop_step (fuel : nat) (cur s : jsstring) :
  splitLoop (S fuel) blankLine cur s
  = match s with
    | [] => [rev cur]
    | c :: r =>
        match matchHere blankLine s with
        | None => splitLoop fuel blankLine (c :: cur) r
        | Some e => rev cur :: splitLoop fuel blankLine [] e
        end
    end.
Proof.
  destruct s as [|c r]; [reflexivity|].
  cbn [splitLoop].
  destruct (matchHere blankLine (c :: r)) as [e|] eqn:T; [|reflexivity].
  destruct cur; [|reflexivity].
  pose proof (matchHere_shorter _ _ T) as L.
  destruct (Nat.eqb_spec (List.length e) (List.length (c :: r)));
    [lia|reflexivity].
Qed.

Lemma snoc_split (pre tail x : jsstring) (c : code_unit) :
  x ++ [c] = pre ++ tail -> tail <> [] ->
  exists tail', tail = tail' ++ [c] /\ x = pre ++ tail'.
Proof.
  intros E N. destruct (exists_last N) as (tail' & a & ->).
  rewrite app_assoc in E. apply app_inj_tail in E. destruct E as [-> ->].
  exists tail'. auto.
Qed.

(** The match found by the pattern cannot be extended: any separator at the
    same position is at most as long. *)
Lemma longest_sep (sep e sep' rest' : jsstring) :
  tailMatch e = None ->
  BlankLineSep sep' -> sep ++ e = sep' ++ rest' ->
  List.length sep' <= List.length sep.
Proof.
  intros T B E.
  destruct (app_eq_app _ _ _ _ E) as (l & [[-> _]|[-> E']]).
  - rewrite length_app. lia.
  - destruct l as [|a l]; [rewrite app_nil_r; lia|].
    exfalso. apply tailMatch_none in T. apply T.
    pose proof (BlankLineSep_space _ B) as A.
    destruct (BlankLineSep_ends _ B) as (front & F).
    assert (N : a :: l <> []) by discriminate.
    destruct (snoc_split _ _ _ _ (eq_sym F) N) as (l' & L & _).
    apply Forall_app in A. destruct A as [_ A].
    rewrite L in A. apply Forall_app in A. destruct A as [A _].
    exists l', rest'. split; [exact A|].
    rewrite E', L, <- app_assoc. reflexivity.
Qed.

(** The loop of [split] cuts its input at the separators. *)
Lemma splitLoop_Paragraphs (fuel : nat) :
  forall cur s,
    List.length s < fuel ->
    (forall pre tail,
       rev cur = pre ++ tail -> tail <> [] -> ~ StartsSep (tail ++ s)) ->
    Paragraphs (rev cur ++ s) (splitLoop fuel blankLine cur s).
Proof.
  induction fuel as [|fuel IH]; intros cur s L Q; [lia|].
  rewrite splitLoop_step.
  destruct s as [|c r].
  - rewrite app_nil_r. apply Paragraphs_last.
    intros (pre & tail & E & S).
    destruct tail as [|a tail]; [destruct (StartsSep_nil S)|].
    apply (Q pre (a :: tail) E); [discriminate|].
    rewrite app_nil_r. exact S.
  - destruct (matchHere blankLine (c :: r)) as [e|] eqn:T.
    + destruct (matchHere_some _ _ T) as (sep & B & E & N).
      pose proof (matchHere_shorter _ _ T) as Le.
      rewrite E. apply Paragraphs_cut.
      * exact B.
      * intros pre tail P Nt. rewrite <- E. apply (Q pre tail); auto.
      * intros sep' rest' B' E'. exact (longest_sep _ _ _ _ N B' E').
      * change e with (rev [] ++ e). apply IH.
        -- simpl in *. lia.
        -- intros pre tail P Nt. simpl in P.
           symmetry in P. apply app_eq_nil in P. destruct P as [_ ->].
           congruence.
    + replace (rev cur ++ c :: r) with (rev (c :: cur) ++ r)
        by (simpl; rewrite <- app_assoc; reflexivity).
      apply IH.
      * simpl in L. lia.
      * intros pre tail P Nt. simpl in P.
        destruct (snoc_split _ _ _ _ P Nt) as (tail' & -> & P').
        rewrite <- app_assoc. simpl.
        destruct tail' as [|a tail'].
        -- simpl. apply matchHere_none. exact T.
        -- apply (Q pre (a :: tail') P'). discriminate.
Qed.

(** [split] returns the paragraphs of its input. *)
Lemma split_Paragraphs (s : jsstring) :
  Paragraphs s (split blankLine s).
Proof.
  destruct s as [|c r].
  - simpl. apply Paragraphs_last. rewrite <- test_HasSep. discriminate.
  - unfold split.
    apply (splitLoop_Paragraphs (2 * List.length (c :: r) + 2) [] (c :: r)).
    + lia.
    + intros pre tail P Nt. simpl in P.
      symmetry in P. apply app_eq_nil in P. destruct P as [_ ->].
      congruence.
Qed.

Lemma StartsSep_app (sep rest : jsstring) :
  BlankLineSep sep -> StartsSep (sep ++ rest).
Proof. intros B. exists sep, rest. auto. Qed.

(** The paragraphs of a string are determined by the string. *)
Lemma Paragraphs_unique (s : jsstring) (a : list jsstring) :
  Paragraphs s a -> forall b, Paragraphs s b -> a = b.
Proof.
  induction 1 as [s N|p sep rest ps B First Longest _ IH]; intros b Hb.
  - inversion Hb as [s' N' E|p' sep' rest' ps' B' _ _ _ E]; subst;
      [reflexivity|].
    exfalso. apply N. exists p', (sep' ++ rest'). split; [reflexivity|].
    apply StartsSep_app, B'.
  - inversion Hb as [s' N' E|p' sep' rest' ps' B' First' Longest' Rest' E];
      subst.
    + exfalso. apply N'. exists p, (sep ++ rest). split; [reflexivity|].
      apply StartsSep_app, B.
    + assert (P : p' = p).
      { destruct (app_eq_app _ _ _ _ E) as (l & [[-> E']|[-> E']]).
        - destruct l as [|x l]; [apply app_nil_r|].
          exfalso. apply (First' p (x :: l) eq_refl); [discriminate|].
          rewrite <- E'. apply StartsSep_app, B.
        - destruct l as [|x l]; [symmetry; apply app_nil_r|].
          exfalso. apply (First p' (x :: l) eq_refl); [discriminate|].
          rewrite <- E'. apply StartsSep_app, B'. }
      subst p'. apply app_inv_head in E.
      assert (Ls : List.length sep' = List.length sep).
      { apply Nat.le_antisymm.
        - apply (Longest sep' rest' B'). symmetry. exact E.
        - apply (Longest' sep rest B). exact E. }
      destruct (app_eq_app _ _ _ _ E) as (l & [[-> E']|[-> E']]);
        rewrite length_app in Ls;
        (destruct l as [|x l]; [|simpl in Ls; lia]);
        rewrite ?app_nil_r in *; simpl in E'; subst;
        f_equal; apply IH; assumption.
Qed.

(* ===================================================================== *)
(** ** Splitter and pacer *)
(* ===================================================================== *)

Lemma sent_app (a b : list Event) : sent (a ++ b) = sent a ++ sent b.
Proof.
  induction a as [|e a IH]; simpl; [reflexivity|].
  destruct e; simpl; rewrite IH; reflexivity.
Qed.

(** The typing indicator never fails the cycle and sends no message. *)
Lemma setTypingStatus_run (w : World) (ch : jsstring) (b : bool)
  (g : Globals) :
  exists t, setTypingStatus w ch b g = (t, g, Ok tt) /\ sent t = [].
Proof.
  unfold setTypingStatus, tryCatch, bind, emit, lift, ret.
  destruct b; [|eexists; split; reflexivity].
  destruct (restPost w ch) as [[]|e]; eexists; split; reflexivity.
Qed.

Section Sends.
Variable w : World.
Variable s : Settings.
Hypothesis sendsSucceed : forall c p, sendMessageAnswer w c p = Ok tt.

Lemma sendPaced_run (ch part : jsstring) (g : Globals) :
  exists t, sendPaced w s ch part g = (t, g, Ok tt) /\ sent t = [part].
Proof.
  unfold sendPaced.
  assert (T : exists t,
             (if showTyping s
              then setTypingStatus w ch (showTyping s)
              else ret tt) g = (t, g, Ok tt) /\ sent t = []).
  { destruct (showTyping s); [apply setTypingStatus_run|].
    exists []. split; reflexivity. }
  destruct T as (t & E & S).
  unfold bind at 1. rewrite E.
  unfold bind, emit, lift. rewrite sendsSucceed.
  eexists. split; [reflexivity|].
  rewrite sent_app, S. reflexivity.
Qed.

Lemma forOf_run (ch : jsstring) (parts : list jsstring) (g : Globals) :
  exists t,
    forOf parts
      (fun part =>
         if jseq (trim part) [] then ret tt else sendPaced w s ch part) g
    = (t, g, Ok tt) /\
    sent t = filter nonBlank parts.
Proof.
  induction parts as [|part parts (t & E & S)]; simpl.
  - exists []. split; reflexivity.
  - unfold bind. unfold nonBlank at 1.
    destruct (jseq (trim part) []); simpl.
    + rewrite E. exists t. auto.
    + destruct (sendPaced_run ch part g) as (t1 & E1 & S1).
      rewrite E1, E. exists (t1 ++ t). split; [reflexivity|].
      rewrite sent_app, S1, S. reflexivity.
Qed.

Lemma sendReply_sent (ch reply : jsstring) (g : Globals) :
  sent (fst (fst (sendReply w s ch reply g)))
  = if test blankLine reply
    then filter nonBlank (split blankLine reply)
    else [reply].
Proof.
  unfold sendReply. destruct (test blankLine reply).
  - destruct (forOf_run ch (split blankLine reply) g) as (t & E & S).
    rewrite E. exact S.
  - destruct (sendPaced_run ch reply g) as (t & E & S).
    rewrite E. exact S.
Qed.
End Sends.

(** C8: when every send succeeds, the messages sent for a reply that holds
    a blank-line separator are its paragraphs that are not blank, one
    message each, in order; a reply without separator is sent whole as one
    message; ["Hello there!\n\nHow are you?"] gives the two sends
    ["Hello there!"] and ["How are you?"], and ["Just one line."] gives
    one. *)
Theorem C8_paragraphs_sent (w : World) (s : Settings) (ch : jsstring)
  (g : Globals) :
  (forall c p, sendMessageAnswer w c p = Ok tt) ->
  (forall reply,
     let out := sent (fst (fst (sendReply w s ch reply g))) in
     (HasSep reply ->
      exists parts,
        Paragraphs reply parts /\ out = filter nonBlank parts) /\
     (~ HasSep reply -> out = [reply])) /\
  sent (fst (fst (sendReply w s ch
                    (js "Hello there!" ++ [LF; LF] ++ js "How are you?") g)))
  = [js "Hello there!"; js "How are you?"] /\
  sent (fst (fst (sendReply w s ch (js "Just one line.") g)))
  = [js "Just one line."].
Proof.
  intros OK. split; [|split].
  - intros reply out. unfold out. rewrite (sendReply_sent w s OK).
    split.
    + intros H. apply test_HasSep in H. rewrite H.
      exists (split blankLine reply). split; [|reflexivity].
      apply split_Paragraphs.
    + intros H. destruct (test blankLine reply) eqn:T; [|reflexivity].
      apply test_HasSep in T. destruct (H T).
  - rewrite (sendReply_sent w s OK). vm_compute. reflexivity.
  - rewrite (sendReply_sent w s OK). vm_compute. reflexivity.
Qed.

Lemma C8_paragraphs_sent_witness :
  let w := calmWorld [] (js "unused") in
  let s := settingsFor (js "gemini") (js "k") in
  (forall reply,
     let out := sent (fst (fst (sendReply w s (js "c") reply initial))) in
     (HasSep reply ->
      exists parts,
        Paragraphs reply parts /\ out = filter nonBlank parts) /\
     (~ HasSep reply -> out = [reply])) /\
  sent (fst (fst (sendReply w s (js "c")
                    (js "Hello there!" ++ [LF; LF] ++ js "How are you?")
                    initial)))
  = [js "Hello there!"; js "How are you?"] /\
  sent (fst (fst (sendReply w s (js "c") (js "Just one line.") initial)))
  = [js "Just one line."].
Proof.
  intros w s. apply (C8_paragraphs_sent w s (js "c") initial).
  intros c p. reflexivity.
Defined.

(** The whole handler on the two replies of the specification. *)
Example cycle_two_paragraphs :
  let w := calmWorld [fromBob "hi"]
             (js "Hello there!" ++ [LF; LF] ++ js "How are you?") in
  let s := settingsFor (js "gemini") (js "k") in
  let g := {| isStarted := true; deBounce := false;
              activeChannelId := Some (js "c"); hasShownError := false |} in
  let ev := {| channelId := js "c"; author := Some (js "bob");
               messageContent := js "hi" |} in
  sent (fst (fst (handleMessage w s ev g)))
  = [js "Hello there!"; js "How are you?"] /\
  snd (fst (handleMessage w s ev g)) = g.
Proof. vm_compute. split; reflexivity. Qed.

(* ===================================================================== *)
(** ** Blank texts and the fetched window *)
(* ===================================================================== *)

Lemma trimStart_nil (s : jsstring) : trimStart s = [] <-> allSpace s.
Proof.
  induction s as [|c r IH]; simpl.
  - split; [constructor | reflexivity].
  - destruct (isWhiteSpace c) eqn:W.
    + rewrite IH. split.
      * intros A. constructor; assumption.
      * intros A. inversion A; assumption.
    + split; [discriminate|].
      intros A. inversion A; congruence.
Qed.

Lemma trimStart_head (s r : jsstring) (c : code_unit) :
  trimStart s = c :: r -> isWhiteSpace c = false.
Proof.
  induction s as [|d s IH]; simpl; [discriminate|].
  destruct (isWhiteSpace d) eqn:W; [exact IH|].
  intros H. inversion H; subst. exact W.
Qed.

Lemma allSpace_rev (s : jsstring) : allSpace (rev s) <-> allSpace s.
Proof.
  unfold allSpace. rewrite !Forall_forall.
  split; intros H c I; apply H; [apply in_rev in I | apply in_rev];
    try rewrite rev_involutive; assumption.
Qed.

Lemma blank_allSpace (s : jsstring) : blank s = true <-> allSpace s.
Proof.
  unfold blank, trim. rewrite jseq_nil.
  split.
  - intros H.
    assert (R : trimStart (rev (trimStart s)) = []).
    { rewrite <- (rev_involutive (trimStart _)), H. reflexivity. }
    apply trimStart_nil in R. apply (proj1 (allSpace_rev _)) in R.
    destruct (trimStart s) as [|c r] eqn:T.
    + apply trimStart_nil. exact T.
    + apply trimStart_head in T. unfold allSpace in R.
      inversion R; congruence.
  - intros A. apply trimStart_nil in A. rewrite A. reflexivity.
Qed.

(** X1: the filter of the assembler keeps a turn exactly when its text holds a
    code unit that is not whitespace: a text of spaces, tabs and line breaks
    only is dropped like the empty text. *)
Theorem keepTurn_some_visible (t : ChatHistory) :
  keepTurn t = true <->
  exists c, In c (text t) /\ isWhiteSpace c = false.
Proof.
  unfold keepTurn. rewrite nonBlank_blank, negb_true_iff.
  split.
  - intros B.
    destruct (existsb (fun c => negb (isWhiteSpace c)) (text t)) eqn:E.
    + apply existsb_exists in E. destruct E as (c & I & N).
      exists c. split; [exact I|]. apply negb_true_iff. exact N.
    + exfalso.
      assert (A : allSpace (text t)).
      { apply Forall_forall. intros c I.
        destruct (isWhiteSpace c) eqn:W; [reflexivity|].
        assert (X : existsb (fun c => negb (isWhiteSpace c)) (text t) = true).
        { apply existsb_exists. exists c. rewrite W. auto. }
        congruence. }
      apply blank_allSpace in A. congruence.
  - intros (c & I & W).
    destruct (blank (text t)) eqn:B; [|reflexivity].
    apply blank_allSpace in B.
    unfold allSpace in B. rewrite Forall_forall in B.
    specialize (B c I). congruence.
Qed.

Lemma slice_suffix {A : Type} (start : Z) (l : list A) :
  exists k, slice start l = skipn k l /\
            Z.of_nat k
            = if (start <? 0)%Z
              then Z.max (Z.of_nat (List.length l) + start) 0
              else Z.min start (Z.of_nat (List.length l)).
Proof.
  unfold slice. eexists. split; [reflexivity|].
  destruct (start <? 0)%Z eqn:S; rewrite Z2Nat.id; lia.
Qed.

(** X2: the fetched window is the tail end of the stored messages; a positive
    [historyLength] bounds it, and [historyLength = 0] does not empty it:
    [slice(-0)] is the whole array.  A negative value drops that many of the
    oldest messages. *)
Theorem fetchWindow_most_recent (all : list Message) (n : Z) :
  exists older,
    all = older ++ fetchWindow (Some all) n /\
    ((0 < n)%Z ->
     Z.of_nat (List.length (fetchWindow (Some all) n))
     = Z.min n (Z.of_nat (List.length all))) /\
    (n = 0%Z -> fetchWindow (Some all) n = all) /\
    ((n < 0)%Z ->
     Z.of_nat (List.length older) = Z.min (- n) (Z.of_nat (List.length all))).
Proof.
  simpl. destruct (slice_suffix (- n) all) as (k & E & K).
  exists (firstn k all). rewrite E.
  split; [symmetry; apply firstn_skipn|].
  rewrite length_skipn, length_firstn.
  repeat split; intros H.
  - assert (S : (- n <? 0)%Z = true) by (apply Z.ltb_lt; lia).
    rewrite S in K. lia.
  - subst n. simpl in K.
    assert (k = 0) by lia. subst k. reflexivity.
  - assert (S : (- n <? 0)%Z = false) by (apply Z.ltb_ge; lia).
    rewrite S in K. lia.
Qed.

Lemma msgdict_keeps (selfId : jsstring) (messages : list Message) :
  Forall (fun t => blank (text t) = false) (msgdict selfId messages) /\
  List.length (msgdict selfId messages) <= List.length messages.
Proof.
  unfold msgdict. split.
  - apply Forall_forall. intros t I. apply filter_In in I.
    destruct I as [_ K]. unfold keepTurn in K.
    rewrite nonBlank_blank in K. apply negb_true_iff. exact K.
  - etransitivity; [apply filter_length_le|].
    rewrite length_map. apply Nat.le_refl.
Qed.

Lemma assembleWindow_head (selfId : jsstring) (messages : list Message)
  (out : list ChatHistory) :
  assembleWindow selfId messages = Ok out ->
  exists first rest, out = first :: rest /\ role first = user.
Proof.
  unfold assembleWindow.
  destruct (msgdict selfId messages) as [|[[|] t] rest]; [discriminate| |];
    simpl; intros A; inversion A; eexists; eexists; split; reflexivity.
Qed.

(** X3: a history that [getMessageHistory] returns is never empty, starts with a
    [user] turn, holds no blank text and is no longer than the window. *)
Theorem returned_history_shape (selfId : jsstring)
  (messages : list Message) (out : list ChatHistory) :
  assembleWindow selfId messages = Ok out ->
  (exists first rest, out = first :: rest /\ role first = user) /\
  Forall (fun t => blank (text t) = false) out /\
  List.length out <= List.length messages.
Proof.
  intros A. split; [exact (assembleWindow_head selfId messages out A)|].
  destruct (msgdict_keeps selfId messages) as [F L].
  unfold assembleWindow in A.
  destruct (msgdict selfId messages) as [|first rest]; [discriminate|].
  inversion F as [|x l Bx Fr]; subst.
  destruct (Role_eqb (role first) model); inversion A; subst;
    (split; [constructor; assumption | exact L]).
Qed.

Lemma returned_history_shape_witness :
  (exists first rest,
     [{| role := user; text := js "hi" |}] = first :: rest /\
     role first = user) /\
  Forall (fun t => blank (text t) = false)
    [{| role := user; text := js "hi" |}] /\
  List.length [{| role := user; text := js "hi" |}]
  <= List.length [{| author_id := js "me"; content := js "hi" |};
                  {| author_id := js "bob"; content := js " " |}].
Proof.
  apply (returned_history_shape (js "me")
           [{| author_id := js "me"; content := js "hi" |};
            {| author_id := js "bob"; content := js " " |}]
           [{| role := user; text := js "hi" |}]).
  reflexivity.
Defined.

(** X4: [getMessageHistory] returns a history exactly when some message of the
    window has a content that is not blank; otherwise it throws. *)
Theorem assembleWindow_succeeds_iff (selfId : jsstring)
  (messages : list Message) :
  (exists out, assembleWindow selfId messages = Ok out) <->
  (exists m, In m messages /\ blank (content m) = false).
Proof.
  split.
  - intros (out & A).
    destruct (forallb (fun m => blank (content m)) messages) eqn:F.
    + unfold assembleWindow in A.
      rewrite (msgdict_all_blank selfId messages F) in A. discriminate.
    + assert (E : existsb (fun m => negb (blank (content m))) messages
                  = true).
      { clear A. induction messages as [|m ms IH]; simpl in *;
          [discriminate|].
        destruct (blank (content m)); simpl in *; auto. }
      apply existsb_exists in E. destruct E as (m & I & N).
      exists m. split; [exact I|]. apply negb_true_iff. exact N.
  - intros (m & I & B).
    assert (K : In (toTurn selfId m) (msgdict selfId messages)).
    { unfold msgdict. apply filter_In. split.
      - apply in_map. exact I.
      - unfold keepTurn. simpl. rewrite nonBlank_blank, B. reflexivity. }
    unfold assembleWindow.
    destruct (msgdict selfId messages) as [|first rest]; [destruct K|].
    destruct (Role_eqb (role first) model); eexists; reflexivity.
Qed.

(* ===================================================================== *)
(** ** More on generateReply *)
(* ===================================================================== *)

(** [generateReply] step by step, for a trigger that is not blank. *)
Lemma generateReply_unfold (w : World) (s : Settings)
  (channel message : jsstring) (g : Globals) :
  blank message = false ->
  generateReply w s channel message g
  = match assembleWindow (user_id w)
            (fetchWindow (getMessages w channel) (historyLength s)) with
    | Ok h =>
        tryCatch (makeAICall w s (removelast h ++ [latestTurn s]) message)
          logAndRethrow g
    | Throw e =>
        ([ConsoleError (js "Error generating reply:")], g, Throw e)
    end.
Proof.
  intros B.
  unfold generateReply, tryCatch at 1, bind at 1.
  rewrite (not_blank_guard _ B).
  unfold bind, ret, getMessageHistory, lift.
  destruct (assembleWindow _ _) as [h|e]; [|reflexivity].
  simpl. unfold tryCatch.
  destruct (makeAICall w s _ message g) as [[t g1] [a|e]]; reflexivity.
Qed.

Lemma generateReply_blank (w : World) (s : Settings)
  (channel message : jsstring) (g : Globals) :
  blank message = true ->
  generateReply w s channel message g
  = ([ConsoleError (js "Error generating reply:")], g,
     Throw (Error (js "Empty message content"))).
Proof.
  intros B. unfold blank in B.
  unfold generateReply, tryCatch, bind.
  rewrite B, orb_true_r. reflexivity.
Qed.

(** X5: a trigger that is empty or holds whitespace only is refused at once:
    [generateReply] throws ["Empty message content"] and has done nothing
    but log the error: no history is assembled and no provider is called,
    whatever the credential and the provider are. *)
Theorem blank_trigger_refused (w : World) (s : Settings)
  (channel message : jsstring) (g : Globals) :
  allSpace message ->
  generateReply w s channel message g
  = ([ConsoleError (js "Error generating reply:")], g,
     Throw (Error (js "Empty message content"))).
Proof.
  intros A. apply generateReply_blank.
  apply blank_allSpace. exact A.
Qed.

Lemma blank_trigger_refused_witness :
  generateReply (calmWorld [fromBob "hi"] (js "sure"))
    (settingsFor (js "gemini") (js "k")) (js "c") (js "  ") initial
  = ([ConsoleError (js "Error generating reply:")], initial,
     Throw (Error (js "Empty message content"))).
Proof.
  apply blank_trigger_refused.
  repeat constructor.
Defined.

Lemma removelast_snoc_head (h : list ChatHistory) (t last : ChatHistory)
  (rest : list ChatHistory) :
  h = t :: rest ->
  exists rest',
    removelast h ++ [last]
    = match rest with [] => last | _ :: _ => t end :: rest'.
Proof.
  intros ->. destruct rest as [|t' rest]; simpl.
  - exists []. reflexivity.
  - eexists. reflexivity.
Qed.

(** X6: every call that [generateReply] makes to a provider carries a history
    that starts with a [user] turn and ends with the custom-instructions
    turn, and carries the trigger as the message: a history that starts
    with the assistant role, which the providers reject, is never sent. *)
Theorem generateReply_history_shape (w : World) (s : Settings)
  (channel message : jsstring) (g : Globals) (e : Event) :
  In e (providerCalls (fst (fst (generateReply w s channel message g)))) ->
  exists first body history,
    history = first :: body /\
    role first = user /\
    (exists front, history = front ++ [latestTurn s]) /\
    (e = GeminiCall (apiKey s) (orElse (modelName s) (js "gemini-2.5-pro"))
           history message \/
     e = FetchCall (restEndpoint (aiProvider s)) (apiKey s)
           (restModel (aiProvider s) (modelName s))
           (wireMessages (aiProvider s) history message)).
Proof.
  destruct (blank message) eqn:B.
  - rewrite (generateReply_blank w s channel message g B).
    simpl. tauto.
  - rewrite (generateReply_unfold w s channel message g B).
    destruct (assembleWindow _ _) as [h|err] eqn:A; [|simpl; tauto].
    rewrite tryCatch_calls by apply logAndRethrow_calls.
    intros I. apply makeAICall_provider_calls in I.
    destruct (assembleWindow_head _ _ _ A) as (t & rest & H & R).
    destruct (removelast_snoc_head h t (latestTurn s) rest H) as (rest' & E).
    exists match rest with [] => latestTurn s | _ :: _ => t end, rest',
           (removelast h ++ [latestTurn s]).
    split; [exact E|]. split; [destruct rest; [reflexivity | exact R]|].
    split; [exists (removelast h); reflexivity | exact I].
Qed.

Lemma generateReply_history_shape_witness :
  let w := calmWorld [fromBob "hello"; fromBob "how are you?"] (js "fine") in
  let s := settingsFor (js "gemini") (js "k") in
  exists first body history,
    history = first :: body /\
    role first = user /\
    (exists front, history = front ++ [latestTurn s]) /\
    (GeminiCall (js "k") (js "gemini-2.5-pro")
       [{| role := user; text := js "hello" |}; latestTurn s]
       (js "how are you?")
     = GeminiCall (apiKey s) (orElse (modelName s) (js "gemini-2.5-pro"))
         history (js "how are you?") \/
     GeminiCall (js "k") (js "gemini-2.5-pro")
       [{| role := user; text := js "hello" |}; latestTurn s]
       (js "how are you?")
     = FetchCall (restEndpoint (aiProvider s)) (apiKey s)
         (restModel (aiProvider s) (modelName s))
         (wireMessages (aiProvider s) history (js "how are you?"))).
Proof.
  intros w s.
  apply (generateReply_history_shape w s (js "c") (js "how are you?")
           initial).
  left. reflexivity.
Defined.

Lemma cspCheck_globals (w : World) (p : jsstring) (e : JsError)
  (g : Globals) :
  snd (fst (cspCheck w p e g)) = g.
Proof.
  unfold cspCheck, bind, handleCSPError, emit, lift, throw, ret.
  destruct (negb (jseq (errorMessage e) []) && cspLike (errorMessage e));
    [|reflexivity].
  destruct (negb (jseq p [])); [|reflexivity].
  destruct (alertAnswer w); reflexivity.
Qed.

(** The adapter reads the settings and never writes a global. *)
Lemma makeAICall_globals (w : World) (s : Settings)
  (history : list ChatHistory) (message : jsstring) (g : Globals) :
  snd (fst (makeAICall w s history message g)) = g.
Proof.
  unfold makeAICall.
  destruct (jseq (apiKey s) []); [reflexivity|].
  unfold tryCatch.
  match goal with
  | |- context [match ?body g with _ => _ end] =>
      assert (B : snd (fst (body g)) = g)
  end.
  { unfold bind, geminiBranch, emit, lift, throw, ret.
    destruct (jseq (aiProvider s) (js "gemini")).
    - destruct (geminiAnswer w _ _ _ _); reflexivity.
    - destruct (jseq (aiProvider s) (js "deepseek")
                || jseq (aiProvider s) (js "openai")); [|reflexivity].
      destruct (fetchAnswer w _ _ _ _) as [err|ok st body];
        [|destruct ok; [destruct body|]]; reflexivity. }
  match goal with
  | |- context [match ?body g with _ => _ end] =>
      destruct (body g) as [[t g1] [a|e]]
  end; simpl in *; subst g1; [reflexivity|].
  pose proof (cspCheck_globals w (aiProvider s) e g) as C.
  destruct (cspCheck w (aiProvider s) e g) as [[t' g2] r]. exact C.
Qed.

Lemma tryCatch_logAndRethrow_throws (m : M jsstring) (g g' : Globals)
  (t : list Event) (e : JsError) :
  tryCatch m logAndRethrow g = (t, g', Throw e) ->
  exists before,
    m g = (before, g', Throw e) /\
    t = before ++ [ConsoleError (js "Error generating reply:")].
Proof.
  unfold tryCatch.
  destruct (m g) as [[t0 g1] [a|e0]]; simpl; [discriminate|].
  intros H; inversion H; subst. exists t0. auto.
Qed.

(** X7: whatever makes [generateReply] fail, logging the failure is the last
    thing it does, and the globals are as before. *)
Theorem generateReply_failure_logged (w : World) (s : Settings)
  (channel message : jsstring) (g g' : Globals) (t : list Event)
  (e : JsError) :
  generateReply w s channel message g = (t, g', Throw e) ->
  g' = g /\
  exists before, t = before ++ [ConsoleError (js "Error generating reply:")].
Proof.
  destruct (blank message) eqn:B.
  - rewrite (generateReply_blank w s channel message g B).
    intros H; inversion H; subst. split; [reflexivity|].
    exists []. reflexivity.
  - rewrite (generateReply_unfold w s channel message g B).
    destruct (assembleWindow _ _) as [h|err].
    + intros H. apply tryCatch_logAndRethrow_throws in H.
      destruct H as (before & H & ->).
      pose proof (makeAICall_globals w s (removelast h ++ [latestTurn s])
                    message g) as G.
      rewrite H in G. simpl in G. split; [exact G|].
      exists before. reflexivity.
    + intros H; inversion H; subst. split; [reflexivity|].
      exists []. reflexivity.
Qed.

Lemma generateReply_failure_logged_witness :
  initial = initial /\
  exists before,
    [ConsoleError (js "Error generating reply:")]
    = before ++ [ConsoleError (js "Error generating reply:")].
Proof.
  apply (generateReply_failure_logged (calmWorld [fromBob "hi"] (js "sure"))
           (settingsFor (js "gemini") []) (js "c") (js "hi")
           initial initial
           [ConsoleError (js "Error generating reply:")]
           (Error (js "API key is required"))).
  reflexivity.
Defined.

(* ===================================================================== *)
(** ** More on the provider adapter *)
(* ===================================================================== *)

(** [makeAICall] with a credential is its one attempt, followed by the
    [catch] block when the attempt throws. *)
Lemma makeAICall_attempt (w : World) (s : Settings)
  (history : list ChatHistory) (message : jsstring) (g : Globals) :
  apiKey s <> [] ->
  makeAICall w s history message g
  = match adapterAttempt w s history message with
    | (t, Ok a) => (t, g, Ok a)
    | (t, Throw e) =>
        match cspCheck w (aiProvider s) e g with
        | (t', g', r) => (t ++ t', g', r)
        end
    end.
Proof.
  intros K. apply jseq_neq in K.
  unfold makeAICall, adapterAttempt. rewrite K.
  unfold tryCatch, bind, geminiBranch, emit, lift, throw, ret.
  destruct (jseq (aiProvider s) (js "gemini")).
  - destruct (geminiAnswer w _ _ _ _); reflexivity.
  - destruct (jseq (aiProvider s) (js "deepseek")
              || jseq (aiProvider s) (js "openai")); [|reflexivity].
    destruct (fetchAnswer w _ _ _ _) as [err|ok st body];
      [|destruct ok; [destruct body|]]; reflexivity.
Qed.

(** The [catch] block when the dialog opens without failing: the error is
    thrown again as it came. *)
Lemma cspCheck_rethrows (w : World) (p : jsstring) (e : JsError)
  (g : Globals) :
  alertAnswer w = Ok tt ->
  exists t, cspCheck w p e g = (t, g, Throw e) /\
    (In (CspDialog p) t <->
     negb (jseq (errorMessage e) []) && cspLike (errorMessage e)
     && negb (jseq p []) = true).
Proof.
  intros A.
  unfold cspCheck, bind, handleCSPError, emit, lift, throw, ret.
  rewrite A.
  destruct (negb (jseq (errorMessage e) []) && cspLike (errorMessage e));
    [destruct (negb (jseq p []))|];
    simpl; eexists; (split; [reflexivity|]); simpl.
  - split; [reflexivity|]. intros _. right. left. reflexivity.
  - split; [intros [H|[]]; discriminate H | discriminate].
  - split; [intros [] | discriminate].
Qed.

(** X8: how the adapter ends, the dialog opening without failing: a rejected
    request and a failing SDK call are thrown on unchanged, a response that
    is not ok becomes an error with the status text of the response, and a
    good response is returned as it is. *)
Theorem makeAICall_outcome (w : World) (s : Settings)
  (history : list ChatHistory) (message : jsstring) (g : Globals) :
  apiKey s <> [] ->
  alertAnswer w = Ok tt ->
  let p := aiProvider s in
  let m := restModel p (modelName s) in
  (p = js "gemini" ->
   snd (makeAICall w s history message g)
   = geminiAnswer w (apiKey s) (orElse (modelName s) (js "gemini-2.5-pro"))
       history message) /\
  (p = js "deepseek" \/ p = js "openai" ->
   snd (makeAICall w s history message g)
   = match fetchAnswer w (restEndpoint p) (apiKey s) m
             (wireMessages p history message) with
     | FetchRejects e => Throw e
     | FetchResponds true _ body => body
     | FetchResponds false statusText _ =>
         Throw (Error (js "API request failed: " ++ statusText))
     end).
Proof.
  intros K A p m. subst p m.
  rewrite (makeAICall_attempt w s history message g K).
  unfold adapterAttempt.
  assert (C : forall t e,
             snd (let '(t', g', r) := cspCheck w (aiProvider s) e g in
                  (t ++ t', g', r)) = Throw e).
  { intros t e.
    destruct (cspCheck_rethrows w (aiProvider s) e g A) as (t' & E & _).
    rewrite E. reflexivity. }
  split.
  - intros P.
    assert (G : jseq (aiProvider s) (js "gemini") = true)
      by (rewrite P; reflexivity).
    rewrite G.
    destruct (geminiAnswer w _ _ _ _) as [a|e]; [reflexivity|apply C].
  - intros P.
    assert (G : jseq (aiProvider s) (js "gemini") = false)
      by (destruct P as [P|P]; rewrite P; reflexivity).
    assert (R : jseq (aiProvider s) (js "deepseek")
                || jseq (aiProvider s) (js "openai") = true)
      by (destruct P as [P|P]; rewrite P; reflexivity).
    rewrite G, R.
    destruct (fetchAnswer w _ _ _ _) as [e|ok st body].
    + apply C.
    + destruct ok; [destruct body as [a|e]; [reflexivity|apply C]|apply C].
Qed.

Lemma makeAICall_outcome_witness :
  let w := calmWorld [] (js "sure") in
  let s := settingsFor (js "deepseek") (js "k") in
  let p := aiProvider s in
  let m := restModel p (modelName s) in
  (p = js "gemini" ->
   snd (makeAICall w s [] (js "hi") initial)
   = geminiAnswer w (apiKey s) (orElse (modelName s) (js "gemini-2.5-pro"))
       [] (js "hi")) /\
  (p = js "deepseek" \/ p = js "openai" ->
   snd (makeAICall w s [] (js "hi") initial)
   = match fetchAnswer w (restEndpoint p) (apiKey s) m
             (wireMessages p [] (js "hi")) with
     | FetchRejects e => Throw e
     | FetchResponds true _ body => body
     | FetchResponds false statusText _ =>
         Throw (Error (js "API request failed: " ++ statusText))
     end).
Proof.
  intros w s.
  apply (makeAICall_outcome w s [] (js "hi") initial).
  - discriminate.
  - reflexivity.
Defined.

Lemma startsWith_prefix (s p : jsstring) :
  startsWith s p = true <-> exists b, s = p ++ b.
Proof.
  revert s. induction p as [|y p IH]; intros s; simpl.
  - split; [intros _; exists s; reflexivity | destruct s; reflexivity].
  - destruct s as [|x s].
    + split; [discriminate | intros (b & E); discriminate].
    + simpl. rewrite andb_true_iff, N.eqb_eq, IH. split.
      * intros (-> & b & ->). exists b. reflexivity.
      * intros (b & E). inversion E; subst. split; [reflexivity|].
        exists b. reflexivity.
Qed.

(** [includes] is the substring test. *)
Lemma includes_substring (s p : jsstring) :
  includes s p = true <-> exists a b, s = a ++ p ++ b.
Proof.
  induction s as [|x s IH].
  - cbn [includes]. rewrite orb_false_r, startsWith_prefix. split.
    + intros (b & E). exists [], b. exact E.
    + intros (a & b & E). destruct a as [|y a]; [|discriminate].
      exists b. exact E.
  - cbn [includes]. rewrite orb_true_iff, startsWith_prefix, IH. split.
    + intros [(b & E)|(a & b & E)].
      * exists [], b. exact E.
      * exists (x :: a), b. rewrite E. reflexivity.
    + intros (a & b & E). destruct a as [|y a].
      * left. exists b. exact E.
      * right. inversion E; subst. exists a, b. reflexivity.
Qed.

Lemma cspLike_keyword (m : jsstring) :
  cspLike m = true <->
  exists kw, In kw cspKeywords /\ exists a b, m = a ++ kw ++ b.
Proof.
  unfold cspLike. rewrite !orb_true_iff, !includes_substring.
  unfold cspKeywords. split.
  - intros [[[[[H|H]|H]|H]|H]|H]; eexists; (split; [|exact H]);
      simpl; tauto.
  - intros (kw & I & H). simpl in I.
    destruct I as [<-|[<-|[<-|[<-|[<-|[<-|[]]]]]]]; tauto.
Qed.

Lemma adapterAttempt_no_dialog (w : World) (s : Settings)
  (history : list ChatHistory) (message p : jsstring) :
  ~ In (CspDialog p) (fst (adapterAttempt w s history message)).
Proof.
  unfold adapterAttempt.
  destruct (jseq (aiProvider s) (js "gemini"));
    [|destruct (jseq (aiProvider s) (js "deepseek")
                || jseq (aiProvider s) (js "openai"))];
    simpl; intros [H|[]]; discriminate.
Qed.

Lemma adapterAttempt_throws (w : World) (s : Settings)
  (history : list ChatHistory) (message : jsstring) (e : JsError) :
  snd (adapterAttempt w s history message) = Throw e ->
  jseq (aiProvider s) [] = false.
Proof.
  unfold adapterAttempt.
  destruct (jseq (aiProvider s) (js "gemini")) eqn:G.
  - intros _. apply jseq_eq in G. rewrite G. reflexivity.
  - destruct (jseq (aiProvider s) (js "deepseek")
              || jseq (aiProvider s) (js "openai")) eqn:R;
      [|discriminate].
    intros _. apply orb_true_iff in R.
    destruct R as [R|R]; apply jseq_eq in R; rewrite R; reflexivity.
Qed.

(** X9: when [makeAICall] fails (and the dialog itself opens without failing),
    it has opened the CSP dialog for the provider exactly when the message
    of the error holds one of the words fetch, network, CORS, blocked, CSP,
    or the sentence of a policy violation: a plain HTTP error or a missing
    key opens none. *)
Theorem makeAICall_csp_dialog (w : World) (s : Settings)
  (history : list ChatHistory) (message : jsstring) (g g' : Globals)
  (t : list Event) (e : JsError) :
  alertAnswer w = Ok tt ->
  makeAICall w s history message g = (t, g', Throw e) ->
  (In (CspDialog (aiProvider s)) t <->
   exists kw, In kw cspKeywords /\
              exists a b, errorMessage e = a ++ kw ++ b).
Proof.
  intros A. rewrite <- cspLike_keyword.
  destruct (jseq (apiKey s) []) eqn:K.
  - unfold makeAICall. rewrite K. intros H; inversion H; subst.
    simpl. split; [intros [] | vm_compute; discriminate].
  - apply jseq_neq in K.
    rewrite (makeAICall_attempt w s history message g K).
    pose proof (adapterAttempt_no_dialog w s history message (aiProvider s))
      as N.
    pose proof (adapterAttempt_throws w s history message) as P.
    destruct (adapterAttempt w s history message) as [t0 [a|e0]];
      [discriminate|].
    specialize (P e0 eq_refl). simpl in N.
    destruct (cspCheck_rethrows w (aiProvider s) e0 g A) as (t' & E & D).
    rewrite E. intros H; inversion H; subst.
    rewrite in_app_iff, D, P. simpl. rewrite andb_true_r.
    split.
    + intros [I|I]; [destruct (N I)|].
      apply andb_true_iff in I. apply I.
    + intros C. right. rewrite C, andb_true_r.
      apply negb_true_iff, jseq_neq. intros Z. rewrite Z in C.
      vm_compute in C. discriminate.
Qed.

Lemma makeAICall_csp_dialog_witness :
  let w :=
    {| user_id := js "me";
       getMessages := fun _ => None;
       restPost := fun _ => Ok tt;
       geminiAnswer := fun _ _ _ _ => Ok [];
       fetchAnswer := fun _ _ _ _ =>
                        FetchRejects (TypeError (js "Failed to fetch"));
       sendMessageAnswer := fun _ _ => Ok tt;
       alertAnswer := Ok tt |} in
  let s := settingsFor (js "openai") (js "k") in
  In (CspDialog (aiProvider s))
    [FetchCall (js "https://api.openai.com/v1/chat/completions") (js "k")
       (js "gemini-2.5-pro") [(js "user", js "hi")];
     ConsoleError (js "CSP violation detected for provider:");
     CspDialog (js "openai")] <->
  exists kw, In kw cspKeywords /\
             exists a b,
               errorMessage (TypeError (js "Failed to fetch"))
               = a ++ kw ++ b.
Proof.
  intros w s.
  apply (makeAICall_csp_dialog w s [] (js "hi") initial initial).
  - reflexivity.
  - reflexivity.
Defined.

(* ===================================================================== *)
(** ** The native helper *)
(* ===================================================================== *)

(** [makeAIRequest] step by step. *)
Lemma makeAIRequest_cases (w : World) (p key mdl : jsstring)
  (history : list ChatHistory) (message : jsstring) (g : Globals) :
  let s := {| enabled := true; aiProvider := p; modelName := mdl;
              apiKey := key; cooldown := 0; customInstructions := [];
              historyLength := 0; showTyping := false |} in
  makeAIRequest w p key mdl history message g
  = if jseq p (js "gemini") || jseq p (js "deepseek") || jseq p (js "openai")
    then
      match adapterAttempt w s history message with
      | (t, Ok a) => (t, g, Ok (Success a))
      | (t, Throw e) =>
          if jseq p (js "gemini")
          then (t ++ [ConsoleError (js "Error in makeAIRequest:")], g,
                Ok (Failure (stringOfError e)))
          else
            match fetchAnswer w (restEndpoint p) key (restModel p mdl)
                    (wireMessages p history message) with
            | FetchResponds false statusText _ =>
                (t, g, Ok (Failure (js "API request failed: " ++ statusText)))
            | _ =>
                (t ++ [ConsoleError (js "Error in makeAIRequest:")], g,
                 Ok (Failure (stringOfError e)))
            end
      end
    else ([], g, Ok (Failure (js "Unknown provider"))).
Proof.
  intros s. subst s. unfold makeAIRequest, adapterAttempt.
  cbn [aiProvider apiKey modelName].
  unfold tryCatch, bind, geminiBranch, emit, lift, throw, ret.
  destruct (jseq p (js "gemini")); cbn [orb].
  - destruct (geminiAnswer w _ _ _ _); reflexivity.
  - destruct (jseq p (js "deepseek") || jseq p (js "openai"));
      [|reflexivity].
    destruct (fetchAnswer w _ _ _ _) as [err|ok st body];
      [|destruct ok; [destruct body|]]; reflexivity.
Qed.

(** X10: the native helper never throws and never writes a global: whatever the
    provider does, the caller gets a structured answer, after at most one
    provider call. *)
Theorem makeAIRequest_always_answers (w : World) (p key mdl : jsstring)
  (history : list ChatHistory) (message : jsstring) (g : Globals) :
  exists t answer,
    makeAIRequest w p key mdl history message g = (t, g, Ok answer) /\
    List.length (providerCalls t) <= 1.
Proof.
  rewrite makeAIRequest_cases. unfold adapterAttempt.
  cbn [aiProvider apiKey modelName].
  destruct (jseq p (js "gemini")); cbn [orb].
  - destruct (geminiAnswer w _ _ _ _);
      eexists; eexists; (split; [reflexivity | simpl; lia]).
  - destruct (jseq p (js "deepseek") || jseq p (js "openai")).
    + destruct (fetchAnswer w _ _ _ _) as [err|ok st body];
        [|destruct ok; [destruct body|]];
        eexists; eexists;
        (split; [reflexivity | rewrite ?providerCalls_app; simpl; lia]).
    + eexists; eexists; (split; [reflexivity | simpl; lia]).
Qed.

(** X11: the native helper does not look at the credential: for a known provider
    it makes its provider call with whatever key it is given, the empty one
    included. *)
Theorem makeAIRequest_ignores_missing_key (w : World) (p mdl : jsstring)
  (history : list ChatHistory) (message : jsstring) (g : Globals) :
  knownProvider p ->
  exists call,
    providerCalls (fst (fst (makeAIRequest w p [] mdl history message g)))
    = [call].
Proof.
  intros K. rewrite makeAIRequest_cases. unfold adapterAttempt.
  cbn [aiProvider apiKey modelName].
  destruct K as [-> | [-> | ->]]; cbn [jseq N.eqb Pos.eqb js N_of_ascii
                                     andb orb];
    simpl.
  - destruct (geminiAnswer w _ _ _ _); eexists; reflexivity.
  - destruct (fetchAnswer w _ _ _ _) as [err|ok st body];
      [|destruct ok; [destruct body|]]; eexists; reflexivity.
  - destruct (fetchAnswer w _ _ _ _) as [err|ok st body];
      [|destruct ok; [destruct body|]]; eexists; reflexivity.
Qed.

Lemma makeAIRequest_ignores_missing_key_witness :
  exists call,
    providerCalls
      (fst (fst (makeAIRequest (calmWorld [] (js "sure")) (js "gemini") []
                   [] [] (js "hi") initial)))
    = [call].
Proof.
  apply makeAIRequest_ignores_missing_key. left. reflexivity.
Defined.

(** X12: with a credential and a known provider, the plugin's adapter and the
    native helper do the same thing: they make the same provider call, and
    one returns a text exactly when the other answers with that text as its
    data. *)
Theorem adapters_agree (w : World) (s : Settings)
  (history : list ChatHistory) (message : jsstring) (g : Globals) :
  apiKey s <> [] ->
  knownProvider (aiProvider s) ->
  providerCalls (fst (fst (makeAICall w s history message g)))
  = providerCalls
      (fst (fst (makeAIRequest w (aiProvider s) (apiKey s) (modelName s)
                   history message g))) /\
  forall a,
    snd (makeAICall w s history message g) = Ok a <->
    snd (makeAIRequest w (aiProvider s) (apiKey s) (modelName s)
           history message g) = Ok (Success a).
Proof.
  intros K P.
  rewrite (makeAICall_attempt w s history message g K).
  rewrite makeAIRequest_cases. unfold adapterAttempt.
  cbn [aiProvider apiKey modelName].
  assert (C : forall t e,
             providerCalls
               (fst (fst (let '(t', g', r) :=
                            cspCheck w (aiProvider s) e g in
                          (t ++ t', g', r))))
             = providerCalls t /\
             forall a,
               snd (let '(t', g', r) := cspCheck w (aiProvider s) e g in
                    (t ++ t', g', r)) <> Ok a).
  { intros t e.
    pose proof (cspCheck_calls w (aiProvider s) e g) as N.
    assert (R : forall a, snd (cspCheck w (aiProvider s) e g) <> Ok a).
    { intros a. unfold cspCheck, bind, handleCSPError, emit, lift, throw,
        ret.
      destruct (negb (jseq (errorMessage e) [])
                && cspLike (errorMessage e));
        [destruct (negb (jseq (aiProvider s) []));
         [destruct (alertAnswer w) as [[]|]|]|]; discriminate. }
    destruct (cspCheck w (aiProvider s) e g) as [[t' g'] r].
    simpl in *. rewrite providerCalls_app, N, app_nil_r. auto. }
  assert (T : jseq (aiProvider s) (js "gemini")
              || jseq (aiProvider s) (js "deepseek")
              || jseq (aiProvider s) (js "openai") = true).
  { destruct P as [P|[P|P]]; rewrite P; reflexivity. }
  rewrite T. clear P.
  destruct (jseq (aiProvider s) (js "gemini")) eqn:G; cbn [orb] in *.
  - destruct (geminiAnswer w _ _ _ _) as [a|e]; cbn [fst snd].
    + split; [reflexivity|]. intros b. split; congruence.
    + match goal with
      | |- context [(?t ++ _, _, _)] => destruct (C t e) as [C1 C2]
      end.
      rewrite C1, providerCalls_app. split; [reflexivity|].
      intros b. split; [intros H; destruct (C2 b H) | discriminate].
  - rewrite T.
    destruct (fetchAnswer w _ _ _ _) as [e|ok st body];
      [|destruct ok; [destruct body as [a|e]|]]; cbn [fst snd];
      try (split; [reflexivity|]; intros b; split; congruence);
      match goal with
      | |- context [cspCheck w _ ?e g] =>
          match goal with
          | |- context [(?t ++ _, _, _)] =>
              destruct (C t e) as [C1 C2]
          end
      end;
      rewrite C1, ?providerCalls_app; (split; [reflexivity|]);
      intros b; (split; [intros H; destruct (C2 b H) | discriminate]).
Qed.

Lemma adapters_agree_witness :
  let w := calmWorld [] (js "sure") in
  let s := settingsFor (js "deepseek") (js "k") in
  providerCalls (fst (fst (makeAICall w s [] (js "hi") initial)))
  = providerCalls
      (fst (fst (makeAIRequest w (aiProvider s) (apiKey s) (modelName s)
                   [] (js "hi") initial))) /\
  forall a,
    snd (makeAICall w s [] (js "hi") initial) = Ok a <->
    snd (makeAIRequest w (aiProvider s) (apiKey s) (modelName s)
           [] (js "hi") initial) = Ok (Success a).
Proof.
  intros w s. apply (adapters_agree w s [] (js "hi") initial).
  - discriminate.
  - right. left. reflexivity.
Defined.

(* ===================================================================== *)
(** ** More on the splitter and pacer *)
(* ===================================================================== *)

Lemma setTypingStatus_trace (w : World) (s : Settings) (ch : jsstring)
  (g : Globals) :
  (if showTyping s then setTypingStatus w ch (showTyping s) else ret tt) g
  = (typingTrace w s ch, g, Ok tt).
Proof.
  unfold typingTrace, setTypingStatus, tryCatch, bind, emit, lift, ret.
  destruct (showTyping s); [|reflexivity].
  destruct (restPost w ch) as [[]|e]; reflexivity.
Qed.

Section Pacing.
Variable w : World.
Variable s : Settings.
Hypothesis sendsSucceed : forall c p, sendMessageAnswer w c p = Ok tt.

Lemma sendPaced_trace (ch part : jsstring) (g : Globals) :
  sendPaced w s ch part g
  = (typingTrace w s ch ++ [Sleep (List.length part); SendMessage ch part],
     g, Ok tt).
Proof.
  unfold sendPaced. unfold bind at 1. rewrite setTypingStatus_trace.
  unfold bind, emit, lift. rewrite sendsSucceed. reflexivity.
Qed.

Lemma forOf_trace (ch : jsstring) (parts : list jsstring) (g : Globals) :
  forOf parts
    (fun part =>
       if jseq (trim part) [] then ret tt else sendPaced w s ch part) g
  = (flat_map
       (fun part =>
          typingTrace w s ch ++
          [Sleep (List.length part); SendMessage ch part])
       (filter nonBlank parts),
     g, Ok tt).
Proof.
  induction parts as [|part parts IH]; [reflexivity|].
  cbn [forOf filter]. unfold bind. unfold nonBlank at 1.
  destruct (jseq (trim part) []); cbn [negb].
  - unfold ret at 1. rewrite IH. reflexivity.
  - rewrite sendPaced_trace, IH. reflexivity.
Qed.
End Pacing.

(** X13: the pacer, the sends succeeding: each outbound message has its own
    typing indicator (when the setting is on), then its own delay, which
    grows with its length, then its send, in the order of the messages;
    nothing else is done, the globals are untouched and nothing is
    thrown. *)
Theorem sendReply_trace (w : World) (s : Settings) (ch reply : jsstring)
  (g : Globals) :
  (forall c p, sendMessageAnswer w c p = Ok tt) ->
  sendReply w s ch reply g
  = (flat_map
       (fun part =>
          typingTrace w s ch ++
          [Sleep (List.length part); SendMessage ch part])
       (outbound reply),
     g, Ok tt).
Proof.
  intros OK. unfold sendReply, outbound.
  destruct (test blankLine reply).
  - apply forOf_trace. exact OK.
  - rewrite (sendPaced_trace w s OK). simpl. rewrite app_nil_r.
    reflexivity.
Qed.

Lemma sendReply_trace_witness :
  let w := calmWorld [] (js "unused") in
  let s := settingsFor (js "gemini") (js "k") in
  sendReply w s (js "c") (js "a" ++ [LF; LF] ++ js "bc") initial
  = (flat_map
       (fun part =>
          typingTrace w s (js "c") ++
          [Sleep (List.length part); SendMessage (js "c") part])
       (outbound (js "a" ++ [LF; LF] ++ js "bc")),
     initial, Ok tt).
Proof.
  intros w s. apply sendReply_trace. intros c p. reflexivity.
Defined.

Lemma filter_visible_space (ws : jsstring) :
  allSpace ws -> filter visible ws = [].
Proof.
  induction 1 as [|c ws W _ IH]; simpl; [reflexivity|].
  unfold visible at 1. rewrite W. exact IH.
Qed.

Lemma Paragraphs_visible (reply : jsstring) (parts : list jsstring) :
  Paragraphs reply parts ->
  filter visible (List.concat parts) = filter visible reply.
Proof.
  induction 1 as [r _|p sep rest ps B _ _ _ IH]; simpl.
  - rewrite app_nil_r. reflexivity.
  - rewrite !filter_app, IH.
    rewrite (filter_visible_space sep (BlankLineSep_space _ B)).
    reflexivity.
Qed.

Lemma nonBlank_visible (parts : list jsstring) :
  filter visible (List.concat (filter nonBlank parts))
  = filter visible (List.concat parts).
Proof.
  induction parts as [|p ps IH]; simpl; [reflexivity|].
  rewrite nonBlank_blank. destruct (blank p) eqn:B; simpl.
  - rewrite filter_app, IH.
    rewrite (filter_visible_space p (proj1 (blank_allSpace p) B)).
    reflexivity.
  - rewrite !filter_app, IH. reflexivity.
Qed.

Lemma outbound_keeps_visible_text (reply : jsstring) :
  filter visible (List.concat (outbound reply)) = filter visible reply.
Proof.
  unfold outbound. destruct (test blankLine reply).
  - rewrite nonBlank_visible.
    apply Paragraphs_visible, split_Paragraphs.
  - simpl. rewrite app_nil_r. reflexivity.
Qed.

Lemma StartsSep_extend (tail more : jsstring) :
  StartsSep tail -> StartsSep (tail ++ more).
Proof.
  intros (sep & rest & B & ->). exists sep, (rest ++ more).
  split; [exact B | symmetry; apply app_assoc].
Qed.

Lemma Paragraphs_no_separator (reply : jsstring) (parts : list jsstring) :
  Paragraphs reply parts -> Forall (fun p => ~ HasSep p) parts.
Proof.
  induction 1 as [r N|p sep rest ps B First _ _ IH].
  - constructor; [exact N | constructor].
  - constructor; [|exact IH].
    intros (pre & tail & E & S).
    apply (First pre tail E).
    + intros ->. destruct (StartsSep_nil S).
    + apply StartsSep_extend. exact S.
Qed.

Lemma outbound_messages_whole (reply m : jsstring) :
  In m (outbound reply) ->
  ~ HasSep m /\ (HasSep reply -> blank m = false).
Proof.
  unfold outbound. destruct (test blankLine reply) eqn:T.
  - intros I. apply filter_In in I. destruct I as [I N].
    split.
    + pose proof (Paragraphs_no_separator _ _ (split_Paragraphs reply)) as F.
      rewrite Forall_forall in F. exact (F m I).
    + intros _. rewrite nonBlank_blank in N.
      apply negb_true_iff. exact N.
  - intros [<-|[]]. split.
    + intros H. apply test_HasSep in H. congruence.
    + intros H. apply test_HasSep in H. congruence.
Qed.

Lemma sendReply_outbound (w : World) (s : Settings) (ch reply : jsstring)
  (g : Globals) :
  (forall c p, sendMessageAnswer w c p = Ok tt) ->
  sent (fst (fst (sendReply w s ch reply g))) = outbound reply.
Proof.
  intros OK. rewrite (sendReply_sent w s OK). reflexivity.
Qed.

(** X14: the splitter loses nothing but whitespace: the code units that are not
    whitespace of the messages sent for a reply are those of the reply, in
    the same order and as many. *)
Theorem sendReply_keeps_visible_text (w : World) (s : Settings)
  (ch reply : jsstring) (g : Globals) :
  (forall c p, sendMessageAnswer w c p = Ok tt) ->
  filter visible (List.concat (sent (fst (fst (sendReply w s ch reply g)))))
  = filter visible reply.
Proof.
  intros OK. rewrite (sendReply_outbound w s ch reply g OK).
  apply outbound_keeps_visible_text.
Qed.

Lemma sendReply_keeps_visible_text_witness :
  let w := calmWorld [] (js "unused") in
  let s := settingsFor (js "gemini") (js "k") in
  filter visible
    (List.concat
       (sent (fst (fst (sendReply w s (js "c")
                          (js " a" ++ [LF; 32%N; LF; LF] ++ js "b c ")
                          initial)))))
  = filter visible (js " a" ++ [LF; 32%N; LF; LF] ++ js "b c ").
Proof.
  intros w s. apply sendReply_keeps_visible_text. intros c p. reflexivity.
Defined.

(** X15: no message sent holds a blank-line separator, and when the reply holds
    one no message sent is blank (a reply without separator is sent as it
    is, blank or not). *)
Theorem sendReply_messages_whole (w : World) (s : Settings)
  (ch reply : jsstring) (g : Globals) (m : jsstring) :
  (forall c p, sendMessageAnswer w c p = Ok tt) ->
  In m (sent (fst (fst (sendReply w s ch reply g)))) ->
  ~ HasSep m /\ (HasSep reply -> blank m = false).
Proof.
  intros OK. rewrite (sendReply_outbound w s ch reply g OK).
  apply outbound_messages_whole.
Qed.

Lemma sendReply_messages_whole_witness :
  ~ HasSep (js "bc") /\
  (HasSep (js "a" ++ [LF; LF] ++ js "bc") -> blank (js "bc") = false).
Proof.
  apply (sendReply_messages_whole (calmWorld [] (js "unused"))
           (settingsFor (js "gemini") (js "k")) (js "c")
           (js "a" ++ [LF; LF] ++ js "bc") initial (js "bc")).
  - intros c p. reflexivity.
  - vm_compute. right. left. reflexivity.
Defined.

(* ===================================================================== *)
(** ** Computations that leave the globals alone *)
(* ===================================================================== *)

Lemma uniform_ret {A : Type} (a : A) : uniform (ret a).
Proof. exists [], (Ok a). reflexivity. Qed.

Lemma uniform_throw {A : Type} (e : JsError) : uniform (@throw A e).
Proof. exists [], (Throw e). reflexivity. Qed.

Lemma uniform_emit (e : Event) : uniform (emit e).
Proof. exists [e], (Ok tt). reflexivity. Qed.

Lemma uniform_lift {A : Type} (r : Result A) : uniform (lift r).
Proof. exists [], r. reflexivity. Qed.

Lemma uniform_bind {A B : Type} (m : M A) (f : A -> M B) :
  uniform m -> (forall a, uniform (f a)) -> uniform (bind m f).
Proof.
  intros (t & r & H) F. destruct r as [a|e].
  - destruct (F a) as (t' & r' & H').
    exists (t ++ t'), r'. intros g. unfold bind. rewrite H, H'. reflexivity.
  - exists t, (Throw e). intros g. unfold bind. rewrite H. reflexivity.
Qed.

Lemma uniform_tryCatch {A : Type} (m : M A) (h : JsError -> M A) :
  uniform m -> (forall e, uniform (h e)) -> uniform (tryCatch m h).
Proof.
  intros (t & r & H) F. destruct r as [a|e].
  - exists t, (Ok a). intros g. unfold tryCatch. rewrite H. reflexivity.
  - destruct (F e) as (t' & r' & H').
    exists (t ++ t'), r'. intros g. unfold tryCatch. rewrite H, H'.
    reflexivity.
Qed.

Lemma uniform_forOf {A : Type} (xs : list A) (body : A -> M unit) :
  (forall x, uniform (body x)) -> uniform (forOf xs body).
Proof.
  intros F. induction xs as [|x xs IH]; simpl.
  - apply uniform_ret.
  - apply uniform_bind; [apply F | intros _; exact IH].
Qed.

Create HintDb uniform.
#[local] Hint Resolve uniform_ret uniform_throw uniform_emit uniform_lift
  : uniform.

Ltac uniform_step :=
  first
    [ apply uniform_bind; [|intros ?]
    | apply uniform_tryCatch; [|intros ?]
    | apply uniform_forOf; intros ?
    | solve [auto with uniform]
    | match goal with
      | |- uniform (if ?b then _ else _) => destruct b
      | |- uniform (match ?x with _ => _ end) => destruct x
      end ].

Lemma uniform_setTypingStatus (w : World) (ch : jsstring) (b : bool) :
  uniform (setTypingStatus w ch b).
Proof. unfold setTypingStatus. repeat uniform_step. Qed.

Lemma uniform_cspCheck (w : World) (p : jsstring) (e : JsError) :
  uniform (cspCheck w p e).
Proof. unfold cspCheck, handleCSPError. repeat uniform_step. Qed.

Lemma uniform_makeAICall (w : World) (s : Settings)
  (history : list ChatHistory) (message : jsstring) :
  uniform (makeAICall w s history message).
Proof.
  unfold makeAICall, geminiBranch.
  destruct (jseq (apiKey s) []); [apply uniform_throw|].
  apply uniform_tryCatch; [|intros e; apply uniform_cspCheck].
  repeat uniform_step.
Qed.

Lemma uniform_generateReply (w : World) (s : Settings)
  (channel message : jsstring) :
  uniform (generateReply w s channel message).
Proof.
  unfold generateReply, getMessageHistory, logAndRethrow.
  apply uniform_tryCatch; [|intros e; repeat uniform_step].
  apply uniform_bind; [repeat uniform_step|intros _].
  apply uniform_bind; [repeat uniform_step|intros h].
  apply uniform_makeAICall.
Qed.

Lemma uniform_sendPaced (w : World) (s : Settings) (ch part : jsstring) :
  uniform (sendPaced w s ch part).
Proof.
  unfold sendPaced.
  apply uniform_bind;
    [destruct (showTyping s);
     [apply uniform_setTypingStatus | apply uniform_ret]|intros _].
  repeat uniform_step.
Qed.

Lemma uniform_sendReply (w : World) (s : Settings) (ch reply : jsstring) :
  uniform (sendReply w s ch reply).
Proof.
  unfold sendReply. destruct (test blankLine reply).
  - apply uniform_forOf. intros part.
    destruct (jseq (trim part) []);
      [apply uniform_ret | apply uniform_sendPaced].
  - apply uniform_sendPaced.
Qed.

(** The [try] block of the handler reads and writes no global. *)
Lemma uniform_replyCycle (w : World) (s : Settings) (ev : MessageCreate) :
  uniform (replyCycle w s ev).
Proof.
  unfold replyCycle.
  apply uniform_bind;
    [destruct (showTyping s);
     [apply uniform_setTypingStatus | apply uniform_ret]|intros _].
  apply uniform_bind; [apply uniform_generateReply|intros reply].
  apply uniform_sendReply.
Qed.

(** A run of the handler that passes the gate, from its [try] block. *)
Lemma handleMessage_run (w : World) (s : Settings) (ev : MessageCreate)
  (g : Globals) :
  ignored w s g ev = false ->
  exists t r,
    (forall g0, replyCycle w s ev g0 = (t, g0, r)) /\
    handleMessage w s ev g
    = match r with
      | Ok _ =>
          (SetDeBounce true :: t ++
             [CooldownSleep (cooldown s); SetDeBounce false],
           withDeBounce false g, Ok tt)
      | Throw _ =>
          (SetDeBounce true :: t ++ reportTrace w g ++
             [CooldownSleep (cooldown s); SetDeBounce false],
           {| isStarted := isStarted g; deBounce := false;
              activeChannelId := activeChannelId g;
              hasShownError := true |},
           if hasShownError g then Ok tt
           else match alertAnswer w with
                | Ok _ => Ok tt
                | Throw e => Throw e
                end)
      end.
Proof.
  intros G. destruct (uniform_replyCycle w s ev) as (t & r & H).
  exists t, r. split; [exact H|].
  unfold handleMessage. rewrite G.
  unfold bind at 1, setDeBounce at 1, tryFinally, tryCatch.
  rewrite H.
  destruct r as [[]|e].
  - reflexivity.
  - unfold reportFailure, reportTrace, bind, emit, getGlobals,
      setHasShownError, lift, ret, coolDown, setDeBounce. simpl.
    destruct (hasShownError g); simpl.
    + rewrite <- app_assoc. reflexivity.
    + destruct (alertAnswer w) as [[]|e']; simpl;
        rewrite <- ?app_assoc; reflexivity.
Qed.

(* ===================================================================== *)
(** ** What a reply cycle may do *)
(* ===================================================================== *)

Section TraceOnly.
Variable P : Event -> Prop.

Lemma traceOnly_ret {A : Type} (a : A) : traceOnly P (ret a).
Proof. intros g. constructor. Qed.

Lemma traceOnly_throw {A : Type} (e : JsError) : traceOnly P (@throw A e).
Proof. intros g. constructor. Qed.

Lemma traceOnly_lift {A : Type} (r : Result A) : traceOnly P (lift r).
Proof. intros g. constructor. Qed.

Lemma traceOnly_emit (e : Event) : P e -> traceOnly P (emit e).
Proof. intros H g. constructor; [exact H | constructor]. Qed.

Lemma traceOnly_bind {A B : Type} (m : M A) (f : A -> M B) :
  traceOnly P m -> (forall a, traceOnly P (f a)) -> traceOnly P (bind m f).
Proof.
  intros H F g. specialize (H g). unfold bind.
  destruct (m g) as [[t g1] [a|e]]; simpl in *; [|exact H].
  specialize (F a g1). destruct (f a g1) as [[t' g2] r]; simpl in *.
  apply Forall_app. auto.
Qed.

Lemma traceOnly_tryCatch {A : Type} (m : M A) (h : JsError -> M A) :
  traceOnly P m -> (forall e, traceOnly P (h e)) ->
  traceOnly P (tryCatch m h).
Proof.
  intros H F g. specialize (H g). unfold tryCatch.
  destruct (m g) as [[t g1] [a|e]]; simpl in *; [exact H|].
  specialize (F e g1). destruct (h e g1) as [[t' g2] r]; simpl in *.
  apply Forall_app. auto.
Qed.

Lemma traceOnly_forOf {A : Type} (xs : list A) (body : A -> M unit) :
  (forall x, traceOnly P (body x)) -> traceOnly P (forOf xs body).
Proof.
  intros F. induction xs as [|x xs IH]; simpl.
  - apply traceOnly_ret.
  - apply traceOnly_bind; [apply F | intros _; exact IH].
Qed.
End TraceOnly.

Ltac traceOnly_step :=
  first
    [ apply traceOnly_bind; [|intros ?]
    | apply traceOnly_tryCatch; [|intros ?]
    | apply traceOnly_forOf; intros ?
    | apply traceOnly_ret
    | apply traceOnly_throw
    | apply traceOnly_lift
    | apply traceOnly_emit; solve [exact I | reflexivity]
    | match goal with
      | |- traceOnly _ (if ?b then _ else _) => destruct b
      | |- traceOnly _ (match ?x with _ => _ end) => destruct x
      end ].

Lemma replyCycle_events (w : World) (s : Settings) (ev : MessageCreate) :
  traceOnly (cycleEvent (channelId ev)) (replyCycle w s ev).
Proof.
  unfold replyCycle, sendReply, sendPaced, setTypingStatus, generateReply,
    getMessageHistory, logAndRethrow.
  apply traceOnly_bind; [repeat traceOnly_step|intros _].
  apply traceOnly_bind.
  - apply traceOnly_tryCatch; [|intros e; repeat traceOnly_step].
    apply traceOnly_bind; [repeat traceOnly_step|intros _].
    apply traceOnly_bind; [repeat traceOnly_step|intros h].
    unfold makeAICall, geminiBranch, cspCheck, handleCSPError.
    repeat traceOnly_step.
  - intros reply. repeat traceOnly_step.
Qed.

Lemma not_ignored_idle (w : World) (s : Settings) (g : Globals)
  (ev : MessageCreate) :
  ignored w s g ev = false -> deBounce g = false.
Proof.
  intros G. destruct (deBounce g) eqn:B; [|reflexivity].
  rewrite (ignored_while_busy w s g ev B) in G. discriminate.
Qed.

Lemma withDeBounce_same (g : Globals) :
  withDeBounce (deBounce g) g = g.
Proof. destruct g; reflexivity. Qed.

(** X16: a run of the handler, ignored or not, leaves the armed flag, the
    focused conversation and the busy flag as it found them and never
    clears [hasShownError]; and unless the error dialog itself fails, the
    handler does not throw, whatever fails inside the cycle. *)
Theorem handleMessage_contained (w : World) (s : Settings)
  (ev : MessageCreate) (g : Globals) :
  let run := handleMessage w s ev g in
  let g' := snd (fst run) in
  isStarted g' = isStarted g /\
  activeChannelId g' = activeChannelId g /\
  deBounce g' = deBounce g /\
  (hasShownError g = true -> hasShownError g' = true) /\
  (alertAnswer w = Ok tt -> snd run = Ok tt).
Proof.
  destruct (ignored w s g ev) eqn:G.
  - unfold handleMessage. rewrite G. simpl. auto.
  - pose proof (not_ignored_idle w s g ev G) as B.
    destruct (handleMessage_run w s ev g G) as (t & r & _ & E).
    rewrite E. destruct r as [a|e]; simpl.
    + repeat split; auto.
    + repeat split; auto.
      intros A. rewrite A. destruct (hasShownError g); reflexivity.
Qed.


(** The trace of a run that passes the gate: the events of the reply
    cycle, between the handler's own. *)
Lemma handleMessage_trace (w : World) (s : Settings) (ev : MessageCreate)
  (g : Globals) :
  ignored w s g ev = false ->
  exists t tail,
    fst (fst (handleMessage w s ev g)) = SetDeBounce true :: t ++ tail /\
    t = fst (fst (replyCycle w s ev g)) /\
    Forall (cycleEvent (channelId ev)) t /\
    Forall handlerEvent tail.
Proof.
  intros G. destruct (handleMessage_run w s ev g G) as (t & r & R & E).
  pose proof (replyCycle_events w s ev g) as C. rewrite R in C.
  simpl in C.
  exists t,
    (match r with
     | Ok _ => [CooldownSleep (cooldown s); SetDeBounce false]
     | Throw _ =>
         reportTrace w g ++ [CooldownSleep (cooldown s); SetDeBounce false]
     end).
  rewrite E, R. split; [destruct r; reflexivity|].
  split; [reflexivity|]. split; [exact C|].
  destruct r as [a|e].
  - repeat constructor.
  - apply Forall_app. split; [|repeat constructor].
    unfold reportTrace. constructor; [exact I|].
    destruct (hasShownError g); [constructor|].
    constructor; [exact I|].
    destruct (alertAnswer w); repeat constructor.
Qed.

(** X18: the handler stays in the conversation of the event: every typing
    request and every message of a run goes to the channel of the event
    that started it. *)
Theorem handleMessage_same_channel (w : World) (s : Settings)
  (ev : MessageCreate) (g : Globals) (c m : jsstring) :
  In (PostTyping c) (fst (fst (handleMessage w s ev g))) \/
  In (SendMessage c m) (fst (fst (handleMessage w s ev g))) ->
  c = channelId ev.
Proof.
  destruct (ignored w s g ev) eqn:G.
  - unfold handleMessage. rewrite G. simpl. tauto.
  - destruct (handleMessage_trace w s ev g G) as (t & tail & E & _ & C & H).
    rewrite E. rewrite Forall_forall in C, H.
    assert (X : forall e,
               In e (SetDeBounce true :: t ++ tail) ->
               e = SetDeBounce true \/ cycleEvent (channelId ev) e
               \/ handlerEvent e).
    { intros e [<-|I]; [auto|].
      apply in_app_iff in I. destruct I as [I|I]; auto. }
    intros [I|I]; apply X in I;
      destruct I as [I|[I|I]]; try discriminate; try destruct I;
      reflexivity.
Qed.

Lemma handleMessage_same_channel_witness :
  let w := calmWorld [fromBob "hi"] (js "Just one line.") in
  let s := settingsFor (js "gemini") (js "k") in
  let ev := {| channelId := js "c"; author := Some (js "bob");
               messageContent := js "hi" |} in
  let g := {| isStarted := true; deBounce := false;
              activeChannelId := Some (js "c"); hasShownError := false |} in
  In (SendMessage (js "c") (js "Just one line."))
    (fst (fst (handleMessage w s ev g))) /\
  js "c" = channelId ev.
Proof.
  intros w s ev g.
  assert (I : In (SendMessage (js "c") (js "Just one line."))
                (fst (fst (handleMessage w s ev g)))).
  { vm_compute. tauto. }
  split; [exact I|].
  apply (handleMessage_same_channel w s ev g (js "c") (js "Just one line.")).
  right. exact I.
Defined.

(* ===================================================================== *)
(** ** What a run sends and calls *)
(* ===================================================================== *)

Lemma sent_notSend (t : list Event) : Forall notSend t -> sent t = [].
Proof.
  induction 1 as [|e t N _ IH]; [reflexivity|].
  destruct e; simpl in *; try exact IH. destruct N.
Qed.

Lemma providerCalls_none (t : list Event) :
  Forall notProviderCall t -> providerCalls t = [].
Proof.
  induction 1 as [|e t N _ IH]; [reflexivity|].
  unfold providerCalls in *. simpl. unfold notProviderCall in N.
  rewrite N. exact IH.
Qed.

Lemma handlerEvent_quiet (t : list Event) :
  Forall handlerEvent t -> sent t = [] /\ providerCalls t = [].
Proof.
  intros H. split.
  - apply sent_notSend. eapply Forall_impl; [|exact H].
    intros e; destruct e; simpl; tauto.
  - apply providerCalls_none. eapply Forall_impl; [|exact H].
    intros e; destruct e; simpl; unfold notProviderCall; simpl;
      tauto.
Qed.

Lemma typingTrace_quiet (w : World) (s : Settings) (ch : jsstring) :
  sent (typingTrace w s ch) = [] /\ providerCalls (typingTrace w s ch) = [].
Proof.
  unfold typingTrace. destruct (showTyping s); [|auto].
  destruct (restPost w ch); auto.
Qed.

Lemma generateReply_no_send (w : World) (s : Settings)
  (channel message : jsstring) :
  traceOnly notSend (generateReply w s channel message).
Proof.
  unfold generateReply, getMessageHistory, logAndRethrow.
  apply traceOnly_tryCatch; [|intros e; repeat traceOnly_step].
  apply traceOnly_bind; [repeat traceOnly_step|intros _].
  apply traceOnly_bind; [repeat traceOnly_step|intros h].
  unfold makeAICall, geminiBranch, cspCheck, handleCSPError.
  repeat traceOnly_step.
Qed.

Lemma sendReply_no_call (w : World) (s : Settings) (ch reply : jsstring) :
  traceOnly notProviderCall (sendReply w s ch reply).
Proof.
  unfold sendReply, sendPaced, setTypingStatus. repeat traceOnly_step.
Qed.

(** The [try] block, part by part: the typing indicator, the generation of
    the reply, and the sends. *)
Lemma replyCycle_parts (w : World) (s : Settings) (ev : MessageCreate)
  (g : Globals) :
  replyCycle w s ev g
  = match generateReply w s (channelId ev) (messageContent ev) g with
    | (tg, _, Ok reply) =>
        match sendReply w s (channelId ev) reply g with
        | (ts, _, rs) =>
            (typingTrace w s (channelId ev) ++ tg ++ ts, g, rs)
        end
    | (tg, _, Throw e) =>
        (typingTrace w s (channelId ev) ++ tg, g, Throw e)
    end.
Proof.
  unfold replyCycle. unfold bind at 1. rewrite setTypingStatus_trace.
  unfold bind.
  destruct (uniform_generateReply w s (channelId ev) (messageContent ev))
    as (tg & rg & H).
  rewrite H. destruct rg as [reply|e]; [|reflexivity].
  destruct (uniform_sendReply w s (channelId ev) reply) as (ts & rs & H').
  rewrite H'. reflexivity.
Qed.

Lemma makeAICall_single_call (w : World) (s : Settings)
  (history : list ChatHistory) (message : jsstring) (g : Globals) :
  List.length (providerCalls (fst (fst (makeAICall w s history message g))))
  <= 1.
Proof.
  destruct (jseq (apiKey s) []) eqn:K.
  - unfold makeAICall. rewrite K. simpl. lia.
  - apply jseq_neq in K.
    rewrite (makeAICall_attempt w s history message g K).
    assert (A : List.length
                  (providerCalls (fst (adapterAttempt w s history message)))
                <= 1).
    { unfold adapterAttempt.
      destruct (jseq (aiProvider s) (js "gemini"));
        [|destruct (jseq (aiProvider s) (js "deepseek")
                    || jseq (aiProvider s) (js "openai"))];
        simpl; lia. }
    destruct (adapterAttempt w s history message) as [t [a|e]];
      [exact A|].
    pose proof (cspCheck_calls w (aiProvider s) e g) as C.
    destruct (cspCheck w (aiProvider s) e g) as [[t' g'] r].
    simpl in *. rewrite providerCalls_app, C, app_nil_r. exact A.
Qed.

Lemma generateReply_single_call (w : World) (s : Settings)
  (channel message : jsstring) (g : Globals) :
  List.length
    (providerCalls (fst (fst (generateReply w s channel message g)))) <= 1.
Proof.
  destruct (blank message) eqn:B.
  - rewrite (generateReply_blank w s channel message g B).
    simpl. lia.
  - rewrite (generateReply_unfold w s channel message g B).
    destruct (assembleWindow _ _) as [h|e]; [|simpl; lia].
    rewrite tryCatch_calls by apply logAndRethrow_calls.
    apply makeAICall_single_call.
Qed.

(** X19: a run of the handler calls a provider at most once: there is no second
    attempt, whatever the first one gives. *)
Theorem handleMessage_single_attempt (w : World) (s : Settings)
  (ev : MessageCreate) (g : Globals) :
  List.length (providerCalls (fst (fst (handleMessage w s ev g)))) <= 1.
Proof.
  destruct (ignored w s g ev) eqn:G.
  - unfold handleMessage. rewrite G. simpl. lia.
  - destruct (handleMessage_trace w s ev g G) as (t & tail & E & T & _ & H).
    rewrite E. simpl. rewrite providerCalls_app.
    rewrite (proj2 (handlerEvent_quiet tail H)), app_nil_r.
    rewrite T, replyCycle_parts.
    pose proof (generateReply_single_call w s (channelId ev)
                  (messageContent ev) g) as L.
    destruct (generateReply w s (channelId ev) (messageContent ev) g)
      as [[tg g1] [reply|e]]; simpl in *.
    + pose proof (sendReply_no_call w s (channelId ev) reply g) as N.
      destruct (sendReply w s (channelId ev) reply g) as [[ts g2] rs].
      simpl in *. rewrite !providerCalls_app.
      rewrite (proj2 (typingTrace_quiet w s (channelId ev))).
      rewrite (providerCalls_none ts N), app_nil_r. exact L.
    + rewrite providerCalls_app.
      rewrite (proj2 (typingTrace_quiet w s (channelId ev))). exact L.
Qed.

(** What a run sends is what its [try] block sends. *)
Lemma handleMessage_sent_cycle (w : World) (s : Settings)
  (ev : MessageCreate) (g : Globals) :
  ignored w s g ev = false ->
  sent (fst (fst (handleMessage w s ev g)))
  = sent (fst (fst (replyCycle w s ev g))).
Proof.
  intros G.
  destruct (handleMessage_trace w s ev g G) as (t & tail & E & T & _ & H).
  rewrite E. simpl. rewrite sent_app.
  rewrite (proj1 (handlerEvent_quiet tail H)), app_nil_r, T. reflexivity.
Qed.

Lemma replyCycle_sent (w : World) (s : Settings) (ev : MessageCreate)
  (g : Globals) :
  (forall c p, sendMessageAnswer w c p = Ok tt) ->
  sent (fst (fst (replyCycle w s ev g)))
  = match snd (generateReply w s (channelId ev) (messageContent ev) g) with
    | Ok reply => outbound reply
    | Throw _ => []
    end.
Proof.
  intros OK. rewrite replyCycle_parts.
  pose proof (generateReply_no_send w s (channelId ev) (messageContent ev) g)
    as N.
  destruct (generateReply w s (channelId ev) (messageContent ev) g)
    as [[tg g1] [reply|e]]; simpl in *.
  - pose proof (sendReply_outbound w s (channelId ev) reply g OK) as S.
    destruct (sendReply w s (channelId ev) reply g) as [[ts g2] rs].
    simpl in *. rewrite !sent_app.
    rewrite (proj1 (typingTrace_quiet w s (channelId ev))).
    rewrite (sent_notSend tg N). exact S.
  - rewrite sent_app.
    rewrite (proj1 (typingTrace_quiet w s (channelId ev))).
    rewrite (sent_notSend tg N). reflexivity.
Qed.

(** X20: what a run that passes the gate sends, the sends succeeding: the
    outbound messages of the generated reply, and nothing at all when the
    generation fails. *)
Theorem run_sends_outbound (w : World) (s : Settings) (ev : MessageCreate)
  (g : Globals) :
  ignored w s g ev = false ->
  (forall c p, sendMessageAnswer w c p = Ok tt) ->
  sent (fst (fst (handleMessage w s ev g)))
  = match snd (generateReply w s (channelId ev) (messageContent ev) g) with
    | Ok reply => outbound reply
    | Throw _ => []
    end.
Proof.
  intros G OK.
  rewrite (handleMessage_sent_cycle w s ev g G).
  apply replyCycle_sent. exact OK.
Qed.

Lemma run_sends_outbound_witness :
  let w := calmWorld [fromBob "hi"] (js "a" ++ [LF; LF] ++ js "b") in
  let s := settingsFor (js "gemini") (js "k") in
  let ev := {| channelId := js "c"; author := Some (js "bob");
               messageContent := js "hi" |} in
  let g := {| isStarted := true; deBounce := false;
              activeChannelId := Some (js "c"); hasShownError := false |} in
  sent (fst (fst (handleMessage w s ev g)))
  = match snd (generateReply w s (channelId ev) (messageContent ev) g) with
    | Ok reply => outbound reply
    | Throw _ => []
    end.
Proof.
  intros w s ev g. apply run_sends_outbound.
  - reflexivity.
  - intros c p. reflexivity.
Defined.



Lemma adapterAttempt_unknown (w : World) (s : Settings)
  (history : list ChatHistory) (message : jsstring) :
  unknownProvider (aiProvider s) ->
  adapterAttempt w s history message
  = ([ConsoleError (js "No such provider!")], Ok []).
Proof.
  intros U. destruct (unknownProvider_tests _ U) as (G & D & O).
  unfold adapterAttempt. rewrite G, D, O. reflexivity.
Qed.

(** X22: with a credential and a provider that is none of the three, a message
    that passes the gate is answered with one message of empty content: the
    empty string that the adapter returns is sent like any reply. *)
Theorem handleMessage_unknown_provider (w : World) (s : Settings)
  (ev : MessageCreate) (g : Globals) (h : list ChatHistory) :
  ignored w s g ev = false ->
  (forall c p, sendMessageAnswer w c p = Ok tt) ->
  apiKey s <> [] ->
  unknownProvider (aiProvider s) ->
  blank (messageContent ev) = false ->
  assembleWindow (user_id w)
    (fetchWindow (getMessages w (channelId ev)) (historyLength s)) = Ok h ->
  sent (fst (fst (handleMessage w s ev g))) = [[]] /\
  providerCalls (fst (fst (handleMessage w s ev g))) = [].
Proof.
  intros G OK K U B A.
  assert (R : generateReply w s (channelId ev) (messageContent ev) g
              = ([ConsoleError (js "No such provider!")], g, Ok [])).
  { rewrite (generateReply_unfold w s _ _ g B), A.
    unfold tryCatch.
    rewrite (makeAICall_attempt w s _ _ g K).
    rewrite (adapterAttempt_unknown w s _ _ U). reflexivity. }
  split.
  - rewrite (handleMessage_sent_cycle w s ev g G).
    rewrite (replyCycle_sent w s ev g OK), R. reflexivity.
  - destruct (handleMessage_trace w s ev g G) as (t & tail & E & T & _ & H).
    rewrite E. simpl. rewrite providerCalls_app.
    rewrite (proj2 (handlerEvent_quiet tail H)), app_nil_r.
    rewrite T, replyCycle_parts, R.
    pose proof (sendReply_no_call w s (channelId ev) [] g) as N.
    destruct (sendReply w s (channelId ev) [] g) as [[ts g2] rs].
    cbn [fst snd] in *. rewrite !providerCalls_app.
    rewrite (proj2 (typingTrace_quiet w s (channelId ev))).
    rewrite (providerCalls_none ts N). reflexivity.
Qed.

Lemma handleMessage_unknown_provider_witness :
  let w := calmWorld [fromBob "hi"] (js "unused") in
  let s := settingsFor (js "claude") (js "k") in
  let ev := {| channelId := js "c"; author := Some (js "bob");
               messageContent := js "hi" |} in
  let g := {| isStarted := true; deBounce := false;
              activeChannelId := Some (js "c"); hasShownError := false |} in
  sent (fst (fst (handleMessage w s ev g))) = [[]] /\
  providerCalls (fst (fst (handleMessage w s ev g))) = [].
Proof.
  intros w s ev g.
  apply (handleMessage_unknown_provider w s ev g
           [{| role := user; text := js "hi" |}]).
  - reflexivity.
  - intros c p. reflexivity.
  - discriminate.
  - repeat split; discriminate.
  - reflexivity.
  - reflexivity.
Defined.

(** X23: a typing request that fails changes nothing of what is sent: with the
    typing requests answered in any other way, the run sends the same
    messages. *)
Theorem typing_failure_harmless (w : World) (s : Settings)
  (ev : MessageCreate) (g : Globals) (f : jsstring -> Result unit) :
  (forall c p, sendMessageAnswer w c p = Ok tt) ->
  sent (fst (fst (handleMessage (withRestPost w f) s ev g)))
  = sent (fst (fst (handleMessage w s ev g))).
Proof.
  intros OK.
  assert (I : ignored (withRestPost w f) s g ev = ignored w s g ev)
    by reflexivity.
  destruct (ignored w s g ev) eqn:G.
  - unfold handleMessage. rewrite I, G. reflexivity.
  - rewrite (handleMessage_sent_cycle (withRestPost w f) s ev g I).
    rewrite (handleMessage_sent_cycle w s ev g G).
    rewrite (replyCycle_sent (withRestPost w f) s ev g OK).
    rewrite (replyCycle_sent w s ev g OK).
    reflexivity.
Qed.

Lemma typing_failure_harmless_witness :
  let w := calmWorld [fromBob "hi"] (js "a" ++ [LF; LF] ++ js "b") in
  let s := settingsFor (js "gemini") (js "k") in
  let ev := {| channelId := js "c"; author := Some (js "bob");
               messageContent := js "hi" |} in
  let g := {| isStarted := true; deBounce := false;
              activeChannelId := Some (js "c"); hasShownError := false |} in
  let f := fun _ : jsstring => @Throw unit (Error (js "403")) in
  sent (fst (fst (handleMessage (withRestPost w f) s ev g)))
  = sent (fst (fst (handleMessage w s ev g))).
Proof.
  intros w s ev g f. apply typing_failure_harmless.
  intros c p. reflexivity.
Defined.

(* ===================================================================== *)
(** ** More on the gate *)
(* ===================================================================== *)

Lemma ignored_unarmed (w : World) (s : Settings) (g : Globals)
  (ev : MessageCreate) :
  isStarted g = false -> ignored w s g ev = true.
Proof.
  intros H. unfold ignored. rewrite H. simpl.
  rewrite !orb_true_r. reflexivity.
Qed.

Lemma ignored_unfocused (w : World) (s : Settings) (g : Globals)
  (ev : MessageCreate) :
  activeChannelId g = None -> ignored w s g ev = true.
Proof.
  intros H. unfold ignored, otherChannel. rewrite H.
  rewrite !orb_true_r. reflexivity.
Qed.

Lemma dispatch_cycles_unarmed (w : World) (s : Settings) (r : Running)
  (i : Input) :
  isStarted (globals r) = false -> isToggle i = false ->
  isStarted (globals (dispatch w s r i)) = false /\
  cycles (dispatch w s r i) <= cycles r.
Proof.
  intros A T. destruct i as [ev|c| | | |]; simpl in *;
    try discriminate.
  - rewrite (ignored_unarmed w s (globals r) ev A). split; auto; lia.
  - split; auto; lia.
  - split; auto; lia.
  - destruct (cycles r) eqn:C; simpl; rewrite ?C; split; auto; lia.
  - destruct (cycles r) eqn:C; simpl; rewrite ?C; split; auto; lia.
Qed.

Lemma dispatch_cycles_unfocused (w : World) (s : Settings) (r : Running)
  (i : Input) :
  activeChannelId (globals r) = None -> isFocus i = false ->
  activeChannelId (globals (dispatch w s r i)) = None /\
  cycles (dispatch w s r i) <= cycles r.
Proof.
  intros A T. destruct i as [ev|c| | | |]; simpl in *.
  - rewrite (ignored_unfocused w s (globals r) ev A). split; auto; lia.
  - destruct c; [discriminate|split; auto; lia].
  - split; auto; lia.
  - split; auto; lia.
  - destruct (cycles r) eqn:C; simpl; rewrite ?C; split; auto; lia.
  - destruct (cycles r) eqn:C; simpl; rewrite ?C; split; auto; lia.
Qed.

(** X24: no cycle starts while the plugin is not armed: from a state in which
    [isStarted] is false, as it is at the start, events among which the
    button is not pressed start no cycle. *)
Theorem unarmed_starts_nothing (w : World) (s : Settings)
  (inputs : list Input) (r : Running) :
  isStarted (globals r) = false ->
  forallb (fun i => negb (isToggle i)) inputs = true ->
  cycles (fold_left (dispatch w s) inputs r) <= cycles r /\
  isStarted (globals (fold_left (dispatch w s) inputs r)) = false.
Proof.
  revert r. induction inputs as [|i inputs IH]; intros r A F; simpl.
  - auto.
  - simpl in F. apply andb_true_iff in F. destruct F as [T F].
    apply negb_true_iff in T.
    destruct (dispatch_cycles_unarmed w s r i A T) as [A' L].
    destruct (IH _ A' F) as [L' A'']. split; [lia|exact A''].
Qed.

Lemma unarmed_starts_nothing_witness :
  let w := calmWorld [fromBob "hi"] (js "hello") in
  let s := settingsFor (js "gemini") (js "k") in
  let inputs := [ChannelSelected (Some (js "c"));
                 MessageArrives {| channelId := js "c";
                                   author := Some (js "bob");
                                   messageContent := js "hi" |}] in
  cycles (fold_left (dispatch w s) inputs started) <= cycles started /\
  isStarted (globals (fold_left (dispatch w s) inputs started)) = false.
Proof.
  intros w s inputs.
  apply (unarmed_starts_nothing w s inputs started); reflexivity.
Defined.

(** X25: after [stop()], and before the first conversation is selected, nothing
    is answered: with the focused conversation forgotten, events among
    which no conversation is selected start no cycle, armed or not.  A
    cycle that was running when the plugin was stopped is not cut short:
    [stop] leaves the busy flag alone. *)
Theorem stopped_starts_nothing (w : World) (s : Settings)
  (inputs : list Input) (r : Running) :
  forallb (fun i => negb (isFocus i)) inputs = true ->
  let stopped := {| globals := stop (globals r); cycles := cycles r |} in
  cycles (fold_left (dispatch w s) inputs stopped) <= cycles r /\
  activeChannelId (globals (fold_left (dispatch w s) inputs stopped)) = None
  /\
  deBounce (globals stopped) = deBounce (globals r).
Proof.
  intros F stopped.
  assert (X : forall inputs r0,
             activeChannelId (globals r0) = None ->
             forallb (fun i => negb (isFocus i)) inputs = true ->
             cycles (fold_left (dispatch w s) inputs r0) <= cycles r0 /\
             activeChannelId (globals (fold_left (dispatch w s) inputs r0))
             = None).
  { clear. induction inputs as [|i inputs IH]; intros r0 A F; simpl.
    - auto.
    - simpl in F. apply andb_true_iff in F. destruct F as [T F].
      apply negb_true_iff in T.
      destruct (dispatch_cycles_unfocused w s r0 i A T) as [A' L].
      destruct (IH _ A' F) as [L' A'']. split; [lia|exact A'']. }
  destruct (X inputs stopped eq_refl F) as [L A].
  repeat split; auto.
Qed.

Lemma stopped_starts_nothing_witness :
  let w := calmWorld [fromBob "hi"] (js "hello") in
  let s := settingsFor (js "gemini") (js "k") in
  let r := {| globals := {| isStarted := true; deBounce := false;
                            activeChannelId := Some (js "c");
                            hasShownError := false |};
              cycles := 0 |} in
  let inputs := [TogglePressed; TogglePressed;
                 MessageArrives {| channelId := js "c";
                                   author := Some (js "bob");
                                   messageContent := js "hi" |}] in
  let stopped := {| globals := stop (globals r); cycles := cycles r |} in
  cycles (fold_left (dispatch w s) inputs stopped) <= cycles r /\
  activeChannelId (globals (fold_left (dispatch w s) inputs stopped)) = None
  /\
  deBounce (globals stopped) = deBounce (globals r).
Proof.
  intros w s r inputs.
  apply (stopped_starts_nothing w s inputs r). reflexivity.
Defined.

(** X26: the gate lets every qualifying message through: with the plugin
    enabled and armed, no cycle running, the event in the focused
    conversation and an author who is not the local user, the message
    starts a cycle, whatever its content. *)
Theorem qualifying_message_starts_cycle (w : World) (s : Settings)
  (r : Running) (ev : MessageCreate) (id : jsstring) :
  enabled s = true ->
  isStarted (globals r) = true ->
  deBounce (globals r) = false ->
  activeChannelId (globals r) = Some (channelId ev) ->
  author ev = Some id -> id <> [] -> id <> user_id w ->
  dispatch w s r (MessageArrives ev)
  = {| globals := withDeBounce true (globals r); cycles := S (cycles r) |}
  /\
  exists t g' r',
    handleMessage w s ev (globals r) = (SetDeBounce true :: t, g', r').
Proof.
  intros E A B F Au N1 N2.
  assert (G : ignored w s (globals r) ev = false).
  { unfold ignored, otherChannel. rewrite E, A, B, F, Au.
    apply jseq_neq in N1, N2. rewrite N1, N2, jseq_refl. reflexivity. }
  split.
  - simpl. rewrite G. reflexivity.
  - destruct (handleMessage_run w s ev (globals r) G) as (t & r0 & _ & H).
    rewrite H. destruct r0 as [a|e];
      eexists; eexists; eexists; reflexivity.
Qed.

Lemma qualifying_message_starts_cycle_witness :
  let w := calmWorld [fromBob "hi"] (js "hello") in
  let s := settingsFor (js "gemini") (js "k") in
  let r := {| globals := {| isStarted := true; deBounce := false;
                            activeChannelId := Some (js "c");
                            hasShownError := false |};
              cycles := 0 |} in
  let ev := {| channelId := js "c"; author := Some (js "bob");
               messageContent := [] |} in
  dispatch w s r (MessageArrives ev)
  = {| globals := withDeBounce true (globals r); cycles := S (cycles r) |}
  /\
  exists t g' r',
    handleMessage w s ev (globals r) = (SetDeBounce true :: t, g', r').
Proof.
  intros w s r ev.
  apply (qualifying_message_starts_cycle w s r ev (js "bob"));
    try reflexivity; discriminate.
Defined.

(** X27: the end of a cycle always reopens the gate: after any sequence of
    events, once the running cycle has reached the end of its [finally]
    block the busy flag is false and no cycle is running. *)
Theorem cycle_end_reopens_gate (w : World) (s : Settings)
  (inputs : list Input) :
  let r := dispatch w s (run w s inputs) CycleEnds in
  deBounce (globals r) = false /\ cycles r = 0.
Proof.
  pose proof (run_invariant w s inputs) as I. unfold gateInvariant in I.
  simpl. destruct (cycles (run w s inputs)) as [|n] eqn:C; simpl.
  - rewrite C. split; [|reflexivity].
    destruct (deBounce (globals (run w s inputs))); [discriminate|reflexivity].
  - split; [reflexivity|].
    destruct (deBounce (globals (run w s inputs))); congruence.
Qed.

(* ===================================================================== *)
(** ** Model lists and CSP overrides *)
(* ===================================================================== *)

Lemma provider_cases (p : jsstring) :
  knownProvider p \/ unknownProvider p.
Proof.
  unfold knownProvider, unknownProvider.
  destruct (jseq p (js "gemini")) eqn:G;
    [apply jseq_eq in G; auto|apply jseq_neq in G].
  destruct (jseq p (js "deepseek")) eqn:D;
    [apply jseq_eq in D; auto|apply jseq_neq in D].
  destruct (jseq p (js "openai")) eqn:O;
    [apply jseq_eq in O; auto|apply jseq_neq in O].
  auto.
Qed.

(** X28: the model lists fit the adapter: a provider has models to offer exactly
    when it is one of the three the adapter knows, the values of a list are
    all different, and the model the adapter falls back on when none is set
    is one of the list. *)
Theorem model_lists_fit_adapter (p : jsstring) :
  (getAvailableModels p <> [] <-> knownProvider p) /\
  NoDup (map value (getAvailableModels p)) /\
  (p = js "gemini" ->
   In (orElse [] (js "gemini-2.5-pro")) (map value (getAvailableModels p)))
  /\
  (p = js "deepseek" \/ p = js "openai" ->
   In (restModel p []) (map value (getAvailableModels p))).
Proof.
  destruct (provider_cases p) as [K|U].
  - split; [split; [intros _; exact K|]|].
    + intros _. destruct K as [-> | [-> | ->]]; discriminate.
    + destruct K as [-> | [-> | ->]].
      * split; [vm_compute; repeat constructor; simpl;
                intuition discriminate|].
        split; [intros _; vm_compute; tauto|].
        intros [H|H]; discriminate H.
      * split; [vm_compute; repeat constructor; simpl;
                intuition discriminate|].
        split; [intros H; discriminate H|].
        intros _. vm_compute. tauto.
      * split; [vm_compute; repeat constructor; simpl;
                intuition discriminate|].
        split; [intros H; discriminate H|].
        intros _. vm_compute. tauto.
  - destruct (unknownProvider_tests _ U) as (G & D & O).
    unfold getAvailableModels. rewrite G, D, O.
    destruct U as (U1 & U2 & U3).
    split; [split; [congruence | intros [K|[K|K]]; congruence]|].
    split; [constructor|].
    split; [congruence|intros [K|K]; congruence].
Qed.

Lemma requestCSPOverride_web (h : CspHost) (p : jsstring) :
  pageProtocol h = Ok (Some (js "https:")) ->
  requestCSPOverride h p = ([], true).
Proof. intros W. unfold requestCSPOverride. rewrite W. reflexivity. Qed.

(** X29: [requestCSPOverride] reports success in two cases only: the page was
    loaded over https, whatever the provider, in which case nothing is
    requested; or the native side answered ["ok"] to the request for the
    domain of the provider. *)
Theorem requestCSPOverride_success (h : CspHost) (p : jsstring) :
  snd (requestCSPOverride h p) = true <->
  pageProtocol h = Ok (Some (js "https:")) \/
  exists d request,
    domainOf h p = Some d /\
    nativeOverride h = Some request /\
    request d = Ok (js "ok").
Proof.
  split.
  - unfold requestCSPOverride.
    destruct (pageProtocol h) as [[proto|]|e] eqn:W.
    + destruct (jseq proto (js "https:")) eqn:J.
      * intros _. left. apply jseq_eq in J. subst proto. reflexivity.
      * destruct (domainOf h p) as [d|]; [|discriminate].
        destruct (nativeOverride h) as [request|]; [|discriminate].
        destruct (request d) as [result|err] eqn:R; [|discriminate].
        destruct (jseq result (js "ok")) eqn:O; [|discriminate].
        intros _. right. exists d, request. apply jseq_eq in O.
        subst result. auto.
    + destruct (domainOf h p) as [d|]; [|discriminate].
      destruct (nativeOverride h) as [request|]; [|discriminate].
      destruct (request d) as [result|err] eqn:R; [|discriminate].
      destruct (jseq result (js "ok")) eqn:O; [|discriminate].
      intros _. right. exists d, request. apply jseq_eq in O.
      subst result. auto.
    + destruct (domainOf h p) as [d|]; [|discriminate].
      destruct (nativeOverride h) as [request|]; [|discriminate].
      destruct (request d) as [result|err] eqn:R; [|discriminate].
      destruct (jseq result (js "ok")) eqn:O; [|discriminate].
      intros _. right. exists d, request. apply jseq_eq in O.
      subst result. auto.
  - intros [W|(d & request & D & N & R)].
    + rewrite (requestCSPOverride_web h p W). reflexivity.
    + unfold requestCSPOverride. rewrite D, N, R.
      destruct (match pageProtocol h with
                | Ok (Some p0) => jseq p0 (js "https:")
                | _ => false
                end); reflexivity.
Qed.

Lemma ownProperty_domains (p : jsstring) :
  (unknownProvider p -> ownProperty AI_PROVIDER_DOMAINS p = None) /\
  (p = js "deepseek" \/ p = js "openai" ->
   exists u, ownProperty AI_PROVIDER_DOMAINS p = Some u /\
             startsWith (restEndpoint p) u = true).
Proof.
  split.
  - intros (G & D & O).
    assert (G' : jseq (js "gemini") p = false)
      by (apply jseq_neq; intros E; apply G; symmetry; exact E).
    assert (D' : jseq (js "deepseek") p = false)
      by (apply jseq_neq; intros E; apply D; symmetry; exact E).
    assert (O' : jseq (js "openai") p = false)
      by (apply jseq_neq; intros E; apply O; symmetry; exact E).
    unfold AI_PROVIDER_DOMAINS, ownProperty. rewrite G', D', O'.
    reflexivity.
  - intros [-> | ->]; eexists; split; reflexivity.
Qed.

(** X30: an override is requested at most for the domain of the provider, and
    never when the page was loaded over https: for deepseek and openai the
    domain is the origin of the endpoint that the adapter fetches, and for a
    provider that is none of the three nothing is requested unless its name
    is one that every object inherits. *)
Theorem requestCSPForProvider_domain (h : CspHost) (p : jsstring)
  (d : Domain) :
  In (RequestAddOverride d) (requestCSPForProvider h p) ->
  p <> [] /\
  pageProtocol h <> Ok (Some (js "https:")) /\
  domainOf h p = Some d /\
  (p = js "deepseek" \/ p = js "openai" ->
   exists u, d = Url u /\ startsWith (restEndpoint p) u = true) /\
  (unknownProvider p -> inherited h p = true /\ d = Inherited p).
Proof.
  unfold requestCSPForProvider.
  destruct p as [|c p]; [intros []|].
  set (q := c :: p).
  assert (X : In (RequestAddOverride d) (fst (requestCSPOverride h q)) ->
              pageProtocol h <> Ok (Some (js "https:")) /\
              domainOf h q = Some d).
  { unfold requestCSPOverride.
    destruct (match pageProtocol h with
              | Ok (Some p0) => jseq p0 (js "https:")
              | _ => false
              end) eqn:Wb; [intros []|].
    assert (W : pageProtocol h <> Ok (Some (js "https:"))).
    { intros E. rewrite E in Wb. discriminate Wb. }
    destruct (domainOf h q) as [d0|]; [|intros [H|[]]; discriminate H].
    destruct (nativeOverride h) as [request|];
      [|intros [H|[]]; discriminate H].
    destruct (request d0) as [result|err];
      [destruct (jseq result (js "ok"))|]; simpl.
    - intros [H|[]]. inversion H; subst. auto.
    - intros [H|[H|[]]]; [|discriminate H]. inversion H; subst. auto.
    - intros [H|[H|[]]]; [|discriminate H]. inversion H; subst. auto. }
  intros I.
  assert (I' : In (RequestAddOverride d) (fst (requestCSPOverride h q))).
  { destruct (requestCSPOverride h q) as [t [|]]; simpl in *; [exact I|].
    apply in_app_iff in I. destruct I as [I|[I|[]]];
      [exact I|discriminate]. }
  destruct (X I') as [W D].
  split; [discriminate|]. split; [exact W|]. split; [exact D|].
  destruct (ownProperty_domains q) as [U R]. unfold domainOf in D.
  split.
  - intros K. destruct (R K) as (u & O & S). rewrite O in D.
    inversion D; subst. exists u. auto.
  - intros K. rewrite (U K) in D.
    destruct (inherited h q); [|discriminate].
    inversion D; subst. auto.
Qed.

Lemma requestCSPForProvider_domain_witness :
  let h := {| pageProtocol := Ok (Some (js "file:"));
              nativeOverride := Some (fun _ => Ok (js "ok"));
              inherited := fun _ => false |} in
  let p := js "deepseek" in
  let d := Url (js "https://api.deepseek.com") in
  p <> [] /\
  pageProtocol h <> Ok (Some (js "https:")) /\
  domainOf h p = Some d /\
  (p = js "deepseek" \/ p = js "openai" ->
   exists u, d = Url u /\ startsWith (restEndpoint p) u = true) /\
  (unknownProvider p -> inherited h p = true /\ d = Inherited p).
Proof.
  intros h p d. apply (requestCSPForProvider_domain h p d).
  vm_compute. left. reflexivity.
Defined.
